(** * BBO receiver: the 48-byte best-bid/offer packet of [host/bbo_receiver.c]

    The host program reads fixed-size packets from the XDMA C2H stream into a
    packed C struct, prints every packet, derives a latency figure from two of
    the four embedded cycle counters and checks the trailing sentinel word.

    The development embeds the packet layout ([BboPacket], lines 44-58),
    [find_xdma_device] (lines 61-112), [print_bbo] (lines 114-138),
    [hexdump] (lines 140-153) and [main] (lines 155-273) with its debug
    branch and its normal-mode receive loop.  [printf] calls are recorded as
    structured output lines carrying the format arguments; what the operating
    system and the C library answer (device enumeration, [CreateFileA],
    [ReadFile], [malloc], [atoi]) is an input of the model; 32-bit unsigned
    arithmetic is carried out on [Z] with the reduction modulo [2^32] written
    out. *)

From Stdlib Require Import ZArith List Lia Bool.
From Stdlib Require Import Strings.Byte.
From coqutil Require Import Byte Word.LittleEndianList.
Import ListNotations.
Local Open Scope Z_scope.

Module BboReceiver.

(** ** Constants *)

(** [#define BBO_PACKET_SIZE 48] *)
Definition BBO_PACKET_SIZE : Z := 48.

(** The sentinel the padding word is compared with (line 135). *)
Definition PADDING_MAGIC : Z := 0xDEADBEEF.

(** Line 129: "Assuming 250 MHz clock (Gen2): 1 cycle = 4 ns". *)
Definition clock_period_ns : Z := 4.

(** ** 32-bit unsigned arithmetic *)

Definition uint32 (z : Z) : Z := z mod 2 ^ 32.

Definition is_uint32 (z : Z) : Prop := 0 <= z < 2 ^ 32.

(** ** The packed struct *)

(** [typedef struct { char symbol[8]; uint32_t bid_price; ... } BboPacket;]
    under [#pragma pack(push, 1)]: no padding between the members. *)
Record BboPacket : Type := mkBboPacket {
  symbol    : list byte;   (* 0-7 *)
  bid_price : Z;           (* 8-11 *)
  bid_size  : Z;           (* 12-15 *)
  ask_price : Z;           (* 16-19 *)
  ask_size  : Z;           (* 20-23 *)
  spread    : Z;           (* 24-27 *)
  ts_t1     : Z;           (* 28-31: ITCH parse timestamp *)
  ts_t2     : Z;           (* 32-35: CDC FIFO write *)
  ts_t3     : Z;           (* 36-39: BBO FIFO read *)
  ts_t4     : Z;           (* 40-43: TX start *)
  padding   : Z            (* 44-47: should be 0xDEADBEEF *)
}.

(** The [len] bytes of [mem] starting at byte offset [off]. *)
Definition bytes_at (mem : list byte) (off len : nat) : list byte :=
  firstn len (skipn off mem).

(** A [uint32_t] member read from the struct's storage; the host is
    little-endian (header comment, line 13). *)
Definition load_u32 (mem : list byte) (off : nat) : Z :=
  le_combine (bytes_at mem off 4).

(** The members of the struct laid over its 48 bytes of storage: what
    [bbo->field] evaluates to after [ReadFile] has filled [&bbo]. *)
Definition load_BboPacket (mem : list byte) : BboPacket :=
  {| symbol    := bytes_at mem 0 8;
     bid_price := load_u32 mem 8;
     bid_size  := load_u32 mem 12;
     ask_price := load_u32 mem 16;
     ask_size  := load_u32 mem 20;
     spread    := load_u32 mem 24;
     ts_t1     := load_u32 mem 28;
     ts_t2     := load_u32 mem 32;
     ts_t3     := load_u32 mem 36;
     ts_t4     := load_u32 mem 40;
     padding   := load_u32 mem 44 |}.

(** A struct value whose members fit their C types. *)
Record wf_BboPacket (p : BboPacket) : Prop := mk_wf {
  wf_symbol    : length (symbol p) = 8%nat;
  wf_bid_price : is_uint32 (bid_price p);
  wf_bid_size  : is_uint32 (bid_size p);
  wf_ask_price : is_uint32 (ask_price p);
  wf_ask_size  : is_uint32 (ask_size p);
  wf_spread    : is_uint32 (spread p);
  wf_ts_t1     : is_uint32 (ts_t1 p);
  wf_ts_t2     : is_uint32 (ts_t2 p);
  wf_ts_t3     : is_uint32 (ts_t3 p);
  wf_ts_t4     : is_uint32 (ts_t4 p);
  wf_padding   : is_uint32 (padding p)
}.

(** ** Output lines *)

(** One constructor per [printf] of [print_bbo] and of the receive loop; the
    arguments are the values handed to the format string. *)
Inductive Output : Type :=
| BboLine (index : Z) (symbol : list byte)
          (bid_price bid_size ask_price ask_size spread : Z)
| TimestampsLine (t1 t2 t3 t4 latency_ns : Z)
| InvalidPadding (padding : Z)
| PartialRead (bytesRead expected : Z)
| NoData
| ReadError (err : Z)
| ReceivedTotal (received : Z).

(** Lines printed with the [WARNING:] prefix. *)
Definition is_warning (o : Output) : bool :=
  match o with
  | InvalidPadding _ | PartialRead _ _ => true
  | _ => false
  end.

(** ** [print_bbo] *)

(** [memcpy(dst, src, n)]: the first [n] bytes of [dst] replaced by those of
    [src]. *)
Definition memcpy (dst src : list byte) (n : nat) : list byte :=
  firstn n src ++ skipn n dst.

(** What [%s] prints: the bytes before the first NUL. *)
Fixpoint c_string (s : list byte) : list byte :=
  match s with
  | [] => []
  | c :: s' => if Byte.eqb c x00 then [] else c :: c_string s'
  end.

(** Lines 126-129: the guarded latency computation, with the two locals
    [latency_cycles] and [latency_ns]. *)
Record Latency : Type := mkLatency {
  latency_cycles : Z;
  latency_ns     : Z
}.

Definition compute_latency (bbo : BboPacket) : option Latency :=
  if (ts_t4 bbo >? ts_t1 bbo) && negb (ts_t1 bbo =? 0) then
    let cycles := uint32 (ts_t4 bbo - ts_t1 bbo) in
    let ns := uint32 (cycles * clock_period_ns) in
    Some {| latency_cycles := cycles; latency_ns := ns |}
  else None.

Definition print_bbo (bbo : BboPacket) (index : Z) : list Output :=
  let symbol9 := memcpy (repeat x00 9) (symbol bbo) 8 in
  [BboLine index (c_string symbol9)
           (bid_price bbo) (bid_size bbo)
           (ask_price bbo) (ask_size bbo) (spread bbo)]
  ++ match compute_latency bbo with
     | Some l =>
         [TimestampsLine (ts_t1 bbo) (ts_t2 bbo) (ts_t3 bbo) (ts_t4 bbo)
                         (latency_ns l)]
     | None => []
     end
  ++ (if negb (padding bbo =? PADDING_MAGIC)
      then [InvalidPadding (padding bbo)] else []).

(** ** [hexdump] *)

(** [char c = data[i + j]]: [char] is signed on the target compiler. *)
Definition signed_char (b : byte) : Z :=
  let u := byte.unsigned b in if u <? 128 then u else u - 256.

(** [(c >= 32 && c < 127) ? c : '.'] *)
Definition hexdump_char (b : byte) : byte :=
  let c := signed_char b in
  if (c >=? 32) && (c <? 127) then b else x2e.

(** One row of the dump: offset, bytes in hex, bytes as text. *)
Record HexRow : Type := mkHexRow {
  row_offset : Z;
  row_hex    : list byte;
  row_ascii  : list byte
}.

(** The outer loop [for (i = 0; i < len; i += 16)], with [rows] bounding the
    number of iterations. *)
Fixpoint hexdump_rows (rows : nat) (i : Z) (data : list byte) : list HexRow :=
  match rows, data with
  | O, _ | _, [] => []
  | S rows', _ =>
      let row := firstn 16 data in
      {| row_offset := i; row_hex := row; row_ascii := map hexdump_char row |}
      :: hexdump_rows rows' (i + 16) (skipn 16 data)
  end.

Definition hexdump (data : list byte) : list HexRow :=
  hexdump_rows (length data) 0 data.

(** ** The receive loop of [main] *)

(** The outcome of one [ReadFile(hDevice, &bbo, BBO_PACKET_SIZE, &bytesRead,
    NULL)]: failure with [GetLastError()], or success with the bytes
    transferred ([bytesRead] is their number, at most [BBO_PACKET_SIZE]). *)
Inductive ReadFileResult : Type :=
| ReadFailed (err : Z)
| ReadDone (data : list byte).

(** The locals of [main] that live across iterations: the storage of
    [BboPacket bbo] and the counter [received]. *)
Record MainState : Type := mkMainState {
  bbo      : list byte;
  received : Z
}.

(** [ReadFile] stores the transferred bytes at the start of the buffer and
    leaves the rest of it as it was. *)
Definition ReadFile (buf data : list byte) : list byte :=
  data ++ skipn (length data) buf.

(** Lines 258-264: the size check and the hand-over to [print_bbo]. *)
Definition check_and_print (st : MainState) (bytesRead : Z)
  : MainState * list Output :=
  if negb (bytesRead =? BBO_PACKET_SIZE) then
    (st, [PartialRead bytesRead BBO_PACKET_SIZE])
  else
    let received' := received st + 1 in
    ({| bbo := bbo st; received := received' |},
     print_bbo (load_BboPacket (bbo st)) received').

(** What the loop does with one delivered buffer: the bytes land in [bbo]
    (line 246), an empty read is answered by the "no data" notice (lines
    252-256), any other read goes through the size check and [print_bbo]
    (lines 258-264). *)
Definition decode (st : MainState) (buffer : list byte)
  : MainState * list Output :=
  let st1 := {| bbo := ReadFile (bbo st) buffer; received := received st |} in
  let bytesRead := Z.of_nat (length buffer) in
  if bytesRead =? 0 then (st1, [NoData])
  else check_and_print st1 bytesRead.

(** One iteration of [while (received < count)]; the boolean tells whether
    the loop goes on ([continue]) or stops ([break]). *)
Definition loop_body (st : MainState) (r : ReadFileResult)
  : MainState * list Output * bool :=
  match r with
  | ReadFailed err => (st, [ReadError err], false)
  | ReadDone data =>
      let st1 := {| bbo := ReadFile (bbo st) data; received := received st |} in
      let bytesRead := Z.of_nat (length data) in
      if bytesRead =? 0 then (st1, [NoData], true)
      else
        let '(st2, out) := check_and_print st1 bytesRead in
        (st2, out, true)
  end.

(** The normal-mode loop over a sequence of [ReadFile] outcomes.  The loop
    itself ends only when [received] reaches [count] or a read fails; when
    the given outcomes run out before that, the result is the state and the
    output up to that point of a run that is still going on ([loop_exits]
    below tells the two apart). *)
Fixpoint receive_loop (count : Z) (reads : list ReadFileResult)
                      (st : MainState) : MainState * list Output :=
  match reads with
  | [] => (st, [])
  | r :: reads' =>
      if received st <? count then
        let '(st1, out, go_on) := loop_body st r in
        if go_on then
          let '(st2, out') := receive_loop count reads' st1 in
          (st2, out ++ out')
        else (st1, out)
      else (st, [])
  end.

(** Whether the given outcomes bring the loop to its exit: the condition
    [received < count] fails or a [ReadFile] fails. *)
Fixpoint loop_exits (count : Z) (reads : list ReadFileResult)
                    (st : MainState) : bool :=
  match reads with
  | [] => negb (received st <? count)
  | r :: reads' =>
      if received st <? count then
        let '(st1, _, go_on) := loop_body st r in
        if go_on then loop_exits count reads' st1 else true
      else true
  end.

(** The loop followed by the closing summary line; this is the output of
    normal mode for outcomes that bring the loop to its exit.  [bbo0] is
    whatever the uninitialised local [bbo] holds on entry. *)
Definition normal_mode (count : Z) (reads : list ReadFileResult)
                       (bbo0 : list byte) : list Output :=
  let '(st, out) :=
    receive_loop count reads {| bbo := bbo0; received := 0 |} in
  out ++ [ReceivedTotal (received st)].

(** ** Auxiliary notions used in the statements *)

(** Modelled from the spec: the encoder is not part of the host program (the
    packets are produced by the FPGA side); following the spec's round-trip
    property it writes the fields "back into 48 bytes at the documented
    offsets", every integer as four little-endian bytes. *)
Definition encode_fields (p : BboPacket) : list byte :=
  symbol p
  ++ le_split 4 (bid_price p) ++ le_split 4 (bid_size p)
  ++ le_split 4 (ask_price p) ++ le_split 4 (ask_size p)
  ++ le_split 4 (spread p)
  ++ le_split 4 (ts_t1 p) ++ le_split 4 (ts_t2 p)
  ++ le_split 4 (ts_t3 p) ++ le_split 4 (ts_t4 p)
  ++ le_split 4 (padding p).

(** The unsigned value of the byte at offset [i]. *)
Definition byte_at (buf : list byte) (i : nat) : Z :=
  byte.unsigned (nth i buf x00).

(** The little-endian unsigned 32-bit reading of the four bytes at [off],
    written as a weighted sum. *)
Definition le_u32_at (buf : list byte) (off : nat) : Z :=
  byte_at buf off
  + 2 ^ 8 * byte_at buf (off + 1)
  + 2 ^ 16 * byte_at buf (off + 2)
  + 2 ^ 24 * byte_at buf (off + 3).

(** An output line with the running packet number blanked: what remains is
    the record, the latency figure and the warnings. *)
Definition erase_index (o : Output) : Output :=
  match o with
  | BboLine _ s bp bs ap az sp => BboLine 0 s bp bs ap az sp
  | _ => o
  end.

Definition set_symbol (p : BboPacket) (s : list byte) : BboPacket :=
  {| symbol := s;
     bid_price := bid_price p; bid_size := bid_size p;
     ask_price := ask_price p; ask_size := ask_size p;
     spread := spread p;
     ts_t1 := ts_t1 p; ts_t2 := ts_t2 p; ts_t3 := ts_t3 p; ts_t4 := ts_t4 p;
     padding := padding p |}.

Definition is_timestamps (o : Output) : bool :=
  match o with TimestampsLine _ _ _ _ _ => true | _ => false end.

Definition is_bbo_line (o : Output) : bool :=
  match o with BboLine _ _ _ _ _ _ _ => true | _ => false end.

(** ** Concrete packets *)

(** All zero except the sentinel [EF BE AD DE] in the last four bytes. *)
Definition zero_packet_bytes : list byte :=
  repeat x00 44 ++ [xef; xbe; xad; xde].

(** A quote for "AAPL" with T1 = 1000, T4 = 1100 and a good sentinel. *)
Definition aapl_packet : BboPacket :=
  {| symbol := [x41; x41; x50; x4c; x00; x00; x00; x00];
     bid_price := 1500000; bid_size := 100;
     ask_price := 1500100; ask_size := 200;
     spread := 100;
     ts_t1 := 1000; ts_t2 := 1040; ts_t3 := 1070; ts_t4 := 1100;
     padding := PADDING_MAGIC |}.

(** A packet whose cycle counter wrapped once between T1 and T4: T1 is six
    cycles before the 32-bit boundary, T4 ten cycles after it. *)
Definition wrapped_packet : BboPacket :=
  {| symbol := [x41; x41; x50; x4c; x00; x00; x00; x00];
     bid_price := 1500000; bid_size := 100;
     ask_price := 1500100; ask_size := 200;
     spread := 100;
     ts_t1 := 4294967290; ts_t2 := 4294967294; ts_t3 := 4; ts_t4 := 10;
     padding := PADDING_MAGIC |}.

(** A packet whose transit took [2^30] cycles: four times that does not fit
    32 bits. *)
Definition overflow_packet : BboPacket :=
  {| symbol := [x41; x41; x50; x4c; x00; x00; x00; x00];
     bid_price := 1500000; bid_size := 100;
     ask_price := 1500100; ask_size := 200;
     spread := 100;
     ts_t1 := 1; ts_t2 := 2; ts_t3 := 3; ts_t4 := 1073741825;
     padding := PADDING_MAGIC |}.

(** A packet whose symbol holds the control byte 0x01 and the byte 0xFF. *)
Definition nonprintable_packet : BboPacket :=
  set_symbol aapl_packet [x41; x01; xff; x4c; x00; x00; x00; x00].

(** What [ReadFile] can deliver for a request of [BBO_PACKET_SIZE] bytes. *)
Definition read_fits (r : ReadFileResult) : Prop :=
  match r with
  | ReadFailed _ => True
  | ReadDone data => (length data <= 48)%nat
  end.

(** ** [find_xdma_device] *)

(** [StringCchCopyA(dest, cchDest, src)]: [src] copied into a buffer of
    [cchDest] characters, cut so that the terminating NUL fits; with a zero
    [cchDest] the call fails and [dest] is left alone. *)
Definition StringCchCopyA (dest : list byte) (cchDest : nat) (src : list byte)
  : list byte :=
  match cchDest with
  | O => dest
  | S room => firstn room src
  end.

(** [StringCchCatA(dest, cchDest, src)]: [src] appended to the string in
    [dest], the result cut to what the buffer holds. *)
Definition StringCchCatA (dest : list byte) (cchDest : nat) (src : list byte)
  : list byte :=
  match cchDest with
  | O => dest
  | S room => firstn room (dest ++ src)
  end.

(** What the SetupAPI calls of one loop iteration report for the interface
    at the current [index] (lines 80-103). *)
Inductive InterfaceProbe : Type :=
| ProbeSizeError        (* size query: last error is not
                           ERROR_INSUFFICIENT_BUFFER *)
| ProbeAllocFailed      (* HeapAlloc returned NULL *)
| ProbeDetailFailed     (* second detail call returned FALSE *)
| ProbeDetail (DevicePath : list byte).

(** The enumeration loop: [SetupDiEnumDeviceInterfaces] succeeds as long as
    interfaces are left.  The result is the function's return value and the
    contents of [devpath]. *)
Fixpoint enum_interfaces (probes : list InterfaceProbe) (index : Z)
                         (devpath : list byte) (len_devpath : nat)
  : Z * list byte :=
  match probes with
  | [] => (0, devpath)
  | ProbeDetail path :: _ =>
      (index + 1, StringCchCopyA devpath len_devpath path)
  | _ :: probes' => enum_interfaces probes' (index + 1) devpath len_devpath
  end.

(** [dev_info] is the outcome of [SetupDiGetClassDevs]: [inl err] for
    [INVALID_HANDLE_VALUE] with its [GetLastError()], [inr probes] for a
    device list.  The third component is the line written to [stderr]. *)
Definition find_xdma_device (dev_info : Z + list InterfaceProbe)
                            (devpath : list byte) (len_devpath : nat)
  : Z * list byte * option Z :=
  match dev_info with
  | inl err => (0, devpath, Some err)
  | inr probes =>
      let '(ret, devpath') := enum_interfaces probes 0 devpath len_devpath in
      (ret, devpath', None)
  end.

(** ** Debug mode of [main] *)

(** [#define DEBUG_BUFFER_SIZE 4096] *)
Definition DEBUG_BUFFER_SIZE : Z := 4096.

(** The lines of the debug branch; [DebugNoData] stands for the "No data
    received!" line together with the three hints printed after it. *)
Inductive DebugLine : Type :=
| DebugAllocFailed
| DebugReading (size : Z)
| DebugReadError (err : Z)
| DebugRead (bytesRead : Z)
| DebugDump (rows : list HexRow)
| DebugMore (more : Z)
| DebugNoData.

(** [hexdump(data, len)] as called from [main]: the dump of the first [len]
    bytes of the buffer. *)
Definition hexdump_len (data : list byte) (len : Z) : list HexRow :=
  hexdump (firstn (Z.to_nat len) data).

(** Lines 216-242.  [debug_buf] is the outcome of [malloc]: [None] for
    [NULL], otherwise the block with whatever it holds.  The second component
    tells whether the branch returns from [main] with status 1. *)
Definition debug_branch (debug_buf : option (list byte)) (r : ReadFileResult)
  : list DebugLine * bool :=
  match debug_buf with
  | None => ([DebugAllocFailed], true)
  | Some block =>
      (DebugReading DEBUG_BUFFER_SIZE ::
       match r with
       | ReadFailed err => [DebugReadError err]
       | ReadDone data =>
           let buf := ReadFile block data in
           let bytesRead := Z.of_nat (length data) in
           DebugRead bytesRead ::
           (if bytesRead >? 0 then
              DebugDump (hexdump_len buf
                           (if bytesRead >? 256 then 256 else bytesRead))
              :: (if bytesRead >? 256 then [DebugMore (bytesRead - 256)]
                  else [])
            else [DebugNoData])
       end, false)
  end.

(** ** [main] *)

(** [MAX_PATH] of the Windows headers. *)
Definition MAX_PATH : nat := 260.

(** The text ["debug"] and the suffix ["\\c2h_0"]. *)
Definition debug_word : list byte := [x64; x65; x62; x75; x67].
Definition c2h_suffix : list byte := [x5c; x63; x32; x68; x5f; x30].

(** Everything [main] obtains from outside: its arguments, the C library
    and the operating system. *)
Record World : Type := mkWorld {
  args        : list (list byte);          (* argv[1], argv[2], ... *)
  atoi        : list byte -> Z;
  class_devs  : Z + list InterfaceProbe;   (* SetupDiGetClassDevs *)
  base_path_init : list byte;              (* base_path on entry *)
  create_file : list byte -> option Z;     (* CreateFileA: [Some err] when
                                              it fails *)
  malloc_buf  : option (list byte);        (* malloc(DEBUG_BUFFER_SIZE) *)
  bbo_init    : list byte;                 (* bbo on entry *)
  reads       : list ReadFileResult        (* successive ReadFile outcomes *)
}.

Inductive MainEvent : Type :=
| DebugBanner (size : Z)
| Searching
| ClassDevsFailed (err : Z)
| NoDevices
| FoundDevices (num_devices : Z)
| BasePath (path : list byte)
| C2HPath (path : list byte)
| Waiting (count : Z)
| OpenFailed (err : Z)
| DeviceOpened
| InDebug (l : DebugLine)
| InLoop (o : Output)
| BlankLine
| CloseHandle.

(** Lines 166-169. *)
Definition parse_count (w : World) : Z :=
  match args w with
  | [] => 10
  | a :: _ => let count := atoi w a in if count <=? 0 then 10 else count
  end.

Definition list_byte_eqb (a b : list byte) : bool :=
  if list_eq_dec Byte.byte_eq_dec a b then true else false.

(** Line 170: [argc > 2 && strcmp(argv[2], "debug") == 0]. *)
Definition debug_mode (w : World) : bool :=
  match args w with
  | _ :: a2 :: _ => list_byte_eqb a2 debug_word
  | _ => false
  end.

(** Lines 189-190: the path of the C2H channel built from the base path. *)
Definition make_c2h_path (base_path : list byte) : list byte :=
  StringCchCatA (StringCchCopyA [] (S MAX_PATH) base_path)
                (S MAX_PATH) c2h_suffix.

(** Whether [reads] holds the outcomes a run needs to reach its end: the
    one read of debug mode, or enough reads for the loop to exit. *)
Definition reads_suffice (w : World) : bool :=
  if debug_mode w then
    match reads w with [] => false | _ :: _ => true end
  else
    loop_exits (parse_count w) (reads w)
               {| bbo := bbo_init w; received := 0 |}.

(** The events of a run and the exit status, for a world whose reads suffice
    ([reads_suffice]).  In debug mode the single [ReadFile] takes the first
    outcome of [reads]. *)
Definition main (w : World) : list MainEvent * Z :=
  let count := parse_count w in
  let banner :=
    if debug_mode w then [DebugBanner DEBUG_BUFFER_SIZE] else [] in
  let '(num_devices, base_path, err) :=
    find_xdma_device (class_devs w) (base_path_init w) (S MAX_PATH) in
  let search :=
    banner ++ [Searching]
    ++ match err with Some e => [ClassDevsFailed e] | None => [] end in
  if num_devices =? 0 then (search ++ [NoDevices], 1)
  else
    let c2h_path := make_c2h_path base_path in
    let intro :=
      search ++ [FoundDevices num_devices; BasePath base_path;
                 C2HPath c2h_path; Waiting count] in
    match create_file w c2h_path with
    | Some e => (intro ++ [OpenFailed e], 1)
    | None =>
        if debug_mode w then
          let '(lines, failed) :=
            debug_branch (malloc_buf w) (hd (ReadDone []) (reads w)) in
          (intro ++ [DeviceOpened] ++ map InDebug lines ++ [CloseHandle],
           if failed then 1 else 0)
        else
          let '(st, out) :=
            receive_loop count (reads w) {| bbo := bbo_init w; received := 0 |} in
          (intro ++ [DeviceOpened] ++ map InLoop out
           ++ [BlankLine; InLoop (ReceivedTotal (received st)); CloseHandle],
           0)
    end.

(** ** Notions used for the receive loop and the dump *)

(** The running numbers of the record lines of an output, in order. *)
Definition record_indices (out : list Output) : list Z :=
  flat_map (fun o => match o with
                     | BboLine i _ _ _ _ _ _ => [i]
                     | _ => []
                     end) out.

(** The records of a sequence of full packets, numbered from [n + 1]. *)
Fixpoint print_all (n : Z) (bufs : list (list byte)) : list Output :=
  match bufs with
  | [] => []
  | b :: bufs' => print_bbo (load_BboPacket b) (n + 1) ++ print_all (n + 1) bufs'
  end.

(** The single line the loop prints for a read that is not a full packet. *)
Definition short_notice (data : list byte) : Output :=
  if Z.of_nat (length data) =? 0 then NoData
  else PartialRead (Z.of_nat (length data)) BBO_PACKET_SIZE.

Definition printable (c : byte) : Prop :=
  0x20 <= byte.unsigned c <= 0x7E.

Definition is_probe_detail (q : InterfaceProbe) : bool :=
  match q with ProbeDetail _ => true | _ => false end.

Definition is_close (e : MainEvent) : bool :=
  match e with CloseHandle => true | _ => false end.

Definition is_opened (e : MainEvent) : bool :=
  match e with DeviceOpened => true | _ => false end.

Definition is_record_event (e : MainEvent) : bool :=
  match e with InLoop o => is_bbo_line o | _ => false end.

(** A run environment: one argument ("1"), two interfaces of which the
    second is usable, a device that opens and delivers a short read and a
    full packet. *)
Definition sample_path : list byte := [x5c; x5c; x3f; x5c; x78; x64; x6d; x61].

Definition sample_world : World :=
  {| args := [[x31]];
     atoi := fun _ => 1;
     class_devs := inr [ProbeDetailFailed; ProbeDetail sample_path];
     base_path_init := [];
     create_file := fun _ => None;
     malloc_buf := Some (repeat xff 4096);
     bbo_init := repeat xff 48;
     reads := [ReadDone [x01; x02]; ReadDone zero_packet_bytes] |}.

(** The same environment with a device that delivers one packet and then
    fails. *)
Definition failing_world : World :=
  {| args := [[x35]];
     atoi := fun _ => 5;
     class_devs := inr [ProbeDetailFailed; ProbeDetail sample_path];
     base_path_init := [];
     create_file := fun _ => None;
     malloc_buf := Some (repeat xff 4096);
     bbo_init := repeat xff 48;
     reads := [ReadDone zero_packet_bytes; ReadFailed 31] |}.

(** The same environment with a device that cannot be opened. *)
Definition locked_world : World :=
  {| args := [[x35]];
     atoi := fun _ => 5;
     class_devs := inr [ProbeDetailFailed; ProbeDetail sample_path];
     base_path_init := [];
     create_file := fun _ => Some 5;
     malloc_buf := Some (repeat xff 4096);
     bbo_init := repeat xff 48;
     reads := [] |}.

(** ** Proof support *)

Tactic Notation "split_bytes" ident(buf) integer(n) :=
  do n (destruct buf as [|? buf]; [discriminate|]);
  destruct buf; [|discriminate].

(** ** Arithmetic of little-endian words *)

Lemma lor_shiftl_byte (b : byte) (z : Z) :
  Z.lor (byte.unsigned b) (Z.shiftl z 8) = byte.unsigned b + 2 ^ 8 * z.
Proof.
  pose proof (byte.unsigned_range b) as Hb.
  rewrite Z.shiftl_mul_pow2 by lia.
  rewrite <- Z.lxor_lor, <- Z.add_nocarry_lxor; try lia.
  all: apply Z.bits_inj'; intros n Hn; rewrite Z.land_spec, Z.bits_0.
  all: destruct (Z.ltb_spec n 8).
  all: try (rewrite Z.mul_pow2_bits_low by lia; apply andb_false_r).
  all: rewrite (Z.bits_above_log2 (byte.unsigned b) n); auto; try lia.
  all: destruct (Z.eq_dec (byte.unsigned b) 0) as [->|]; [simpl; lia|].
  all: apply Z.log2_lt_pow2; try lia.
  all: eapply Z.lt_le_trans; [apply Hb|]; apply Z.pow_le_mono_r; lia.
Qed.

Lemma le_combine_4 (a b c d : byte) :
  le_combine [a; b; c; d] =
  byte.unsigned a + 2 ^ 8 * byte.unsigned b
  + 2 ^ 16 * byte.unsigned c + 2 ^ 24 * byte.unsigned d.
Proof.
  unfold le_combine. rewrite !lor_shiftl_byte. lia.
Qed.

Lemma le_combine_split_4 (v : Z) :
  is_uint32 v -> le_combine (le_split 4 v) = v.
Proof.
  intros Hv. rewrite le_combine_split.
  apply Z.mod_small. exact Hv.
Qed.

Lemma load_u32_range (mem : list byte) (off : nat) :
  is_uint32 (load_u32 mem off).
Proof.
  unfold load_u32, bytes_at, is_uint32.
  pose proof (le_combine_bound (firstn 4 (skipn off mem))) as H.
  pose proof (firstn_le_length 4 (skipn off mem)) as Hl.
  assert (2 ^ (8 * Z.of_nat (length (firstn 4 (skipn off mem)))) <= 2 ^ 32).
  { apply Z.pow_le_mono_r; lia. }
  lia.
Qed.

Lemma load_BboPacket_wf (mem : list byte) :
  (8 <= length mem)%nat -> wf_BboPacket (load_BboPacket mem).
Proof.
  intros Hlen. constructor; cbn [load_BboPacket symbol bid_price bid_size
    ask_price ask_size spread ts_t1 ts_t2 ts_t3 ts_t4 padding];
    try apply load_u32_range.
  unfold bytes_at. rewrite length_firstn, length_skipn. lia.
Qed.

(** ** The storage of [bbo] across reads *)

Lemma bytes_at_prefix (buf rest : list byte) (off len : nat) :
  (off + len <= length buf)%nat ->
  bytes_at (buf ++ rest) off len = bytes_at buf off len.
Proof.
  intros H. unfold bytes_at.
  rewrite skipn_app, firstn_app, length_skipn.
  replace (len - (length buf - off))%nat with 0%nat by lia.
  rewrite firstn_O. apply app_nil_r.
Qed.

(** A read of the full packet size overwrites every member: nothing of the
    previous packet is left in the struct. *)
Lemma load_ReadFile_full (mem buffer : list byte) :
  length buffer = 48%nat ->
  load_BboPacket (ReadFile mem buffer) = load_BboPacket buffer.
Proof.
  intros H. unfold load_BboPacket, load_u32, ReadFile.
  rewrite !bytes_at_prefix by lia. reflexivity.
Qed.

Lemma ReadFile_length (mem buffer : list byte) :
  length mem = 48%nat -> (length buffer <= 48)%nat ->
  length (ReadFile mem buffer) = 48%nat.
Proof.
  intros Hm Hb. unfold ReadFile.
  rewrite length_app, length_skipn. lia.
Qed.

(** ** The two branches of the decoding path *)

Lemma decode_full (st : MainState) (buffer : list byte) :
  length buffer = 48%nat ->
  decode st buffer =
  ({| bbo := ReadFile (bbo st) buffer; received := received st + 1 |},
   print_bbo (load_BboPacket buffer) (received st + 1)).
Proof.
  intros H. unfold decode, check_and_print. rewrite H.
  cbn [Z.of_nat Pos.of_succ_nat Pos.succ BBO_PACKET_SIZE Z.eqb Pos.eqb negb
       bbo received].
  rewrite load_ReadFile_full by exact H. reflexivity.
Qed.

Lemma decode_empty (st : MainState) :
  decode st [] = (st, [NoData]).
Proof. destruct st. reflexivity. Qed.

Lemma decode_mismatch (st : MainState) (buffer : list byte) :
  length buffer <> 48%nat -> buffer <> [] ->
  decode st buffer =
  ({| bbo := ReadFile (bbo st) buffer; received := received st |},
   [PartialRead (Z.of_nat (length buffer)) 48]).
Proof.
  intros H Hne. unfold decode, check_and_print, BBO_PACKET_SIZE.
  destruct (Z.eqb_spec (Z.of_nat (length buffer)) 0) as [E0|E0].
  { destruct buffer; [congruence | cbn [length] in E0; lia]. }
  destruct (Z.eqb_spec (Z.of_nat (length buffer)) 48) as [E|E]; [lia|].
  reflexivity.
Qed.

(** One iteration of the loop on a successful read is [decode]. *)
Lemma loop_body_decode (st : MainState) (data : list byte) :
  loop_body st (ReadDone data) = (decode st data, true).
Proof.
  unfold loop_body, decode.
  destruct (Z.of_nat (length data) =? 0); [reflexivity|].
  destruct (check_and_print _ _). reflexivity.
Qed.

Lemma decode_short (st : MainState) (buffer : list byte) :
  length buffer <> 48%nat ->
  decode st buffer =
  ({| bbo := ReadFile (bbo st) buffer; received := received st |},
   [short_notice buffer]).
Proof.
  intros H. destruct buffer as [|b buffer].
  - rewrite decode_empty. destruct st. reflexivity.
  - rewrite decode_mismatch by (exact H || discriminate).
    unfold short_notice.
    destruct (Z.eqb_spec (Z.of_nat (length (b :: buffer))) 0) as [E|E];
      [cbn [length] in E; lia | reflexivity].
Qed.

Lemma loop_body_no_data (st : MainState) :
  loop_body st (ReadDone []) = (st, [NoData], true).
Proof. destruct st. reflexivity. Qed.

(** ** Invariants of the receive loop *)

Lemma loop_body_invariant (count : Z) (st : MainState) (r : ReadFileResult) :
  read_fits r ->
  length (bbo st) = 48%nat -> received st < count ->
  let st' := fst (fst (loop_body st r)) in
  length (bbo st') = 48%nat
  /\ received st <= received st' <= count.
Proof.
  intros Hr Hlen Hcnt. destruct r as [err|data]; cbn [loop_body read_fits] in *.
  - cbn [fst]. lia.
  - destruct (Z.of_nat (length data) =? 0).
    + cbn [fst bbo received]. rewrite ReadFile_length by assumption. lia.
    + unfold check_and_print.
      destruct (negb (Z.of_nat (length data) =? BBO_PACKET_SIZE));
        cbn [fst bbo received]; rewrite ReadFile_length by assumption; lia.
Qed.

(** The struct keeps its 48 bytes and the counter never passes [count]. *)
Lemma receive_loop_invariant (count : Z) (reads : list ReadFileResult) :
  Forall read_fits reads ->
  forall st : MainState,
  length (bbo st) = 48%nat -> received st <= count ->
  let st' := fst (receive_loop count reads st) in
  length (bbo st') = 48%nat
  /\ received st <= received st' <= count.
Proof.
  induction 1 as [|r reads Hr Hrs IH]; intros st Hlen Hcnt;
    cbn [receive_loop].
  - cbn [fst]. lia.
  - destruct (Z.ltb_spec (received st) count) as [Hlt|Hge];
      [|cbn [fst]; lia].
    pose proof (loop_body_invariant count st r Hr Hlen Hlt) as Hb.
    destruct (loop_body st r) as [[st1 out] go_on]. cbn [fst] in Hb.
    destruct Hb as [Hl1 Hc1].
    destruct go_on; [|cbn [fst]; lia].
    specialize (IH st1 Hl1 (proj2 Hc1)).
    destruct (receive_loop count reads st1) as [st2 out']. cbn [fst] in *.
    lia.
Qed.

(** ** Shape of the output of [print_bbo] *)

Lemma c_string_app_nul (s t : list byte) :
  c_string (s ++ x00 :: t) = c_string s.
Proof.
  induction s as [|c s IH]; cbn [app c_string].
  - reflexivity.
  - destruct (Byte.eqb c x00); [reflexivity | now rewrite IH].
Qed.

Lemma print_bbo_symbol9 (s : list byte) :
  c_string (memcpy (repeat x00 9) s 8) = c_string (firstn 8 s).
Proof. unfold memcpy. cbn [repeat skipn]. apply c_string_app_nul. Qed.

Lemma print_bbo_unfold (p : BboPacket) (index : Z) :
  print_bbo p index =
  BboLine index (c_string (firstn 8 (symbol p)))
          (bid_price p) (bid_size p) (ask_price p) (ask_size p) (spread p)
  :: match compute_latency p with
     | Some l =>
         [TimestampsLine (ts_t1 p) (ts_t2 p) (ts_t3 p) (ts_t4 p) (latency_ns l)]
     | None => []
     end
  ++ (if padding p =? PADDING_MAGIC then [] else [InvalidPadding (padding p)]).
Proof.
  unfold print_bbo. rewrite print_bbo_symbol9.
  destruct (padding p =? PADDING_MAGIC); reflexivity.
Qed.

Lemma compute_latency_some (p : BboPacket) :
  is_uint32 (ts_t1 p) -> is_uint32 (ts_t4 p) ->
  ts_t4 p > ts_t1 p -> ts_t1 p <> 0 ->
  compute_latency p =
  Some {| latency_cycles := ts_t4 p - ts_t1 p;
          latency_ns := uint32 ((ts_t4 p - ts_t1 p) * clock_period_ns) |}.
Proof.
  unfold is_uint32, compute_latency. intros H1 H4 Hgt Hnz.
  destruct (Z.gtb_spec (ts_t4 p) (ts_t1 p)) as [_|]; [|lia].
  destruct (Z.eqb_spec (ts_t1 p) 0) as [|_]; [lia|].
  cbn [andb negb].
  replace (uint32 (ts_t4 p - ts_t1 p)) with (ts_t4 p - ts_t1 p);
    [reflexivity|].
  unfold uint32. symmetry. apply Z.mod_small. lia.
Qed.

Lemma compute_latency_none (p : BboPacket) :
  ts_t1 p = 0 \/ ts_t4 p <= ts_t1 p -> compute_latency p = None.
Proof.
  unfold compute_latency. intros H.
  destruct (Z.gtb_spec (ts_t4 p) (ts_t1 p)); [|reflexivity].
  destruct (Z.eqb_spec (ts_t1 p) 0); [reflexivity|lia].
Qed.

(** ** Members as weighted sums of bytes *)

Lemma load_u32_sum (buf : list byte) (off : nat) :
  (off + 4 <= length buf)%nat -> load_u32 buf off = le_u32_at buf off.
Proof.
  revert buf. induction off as [|off IH]; intros buf H.
  - destruct buf as [|a [|b [|c [|d r]]]]; cbn [length] in H; try lia.
    unfold load_u32, bytes_at, le_u32_at, byte_at.
    cbn [skipn firstn nth Nat.add]. apply le_combine_4.
  - destruct buf as [|x buf]; cbn [length] in H; [lia|].
    unfold load_u32, bytes_at, le_u32_at, byte_at in *.
    cbn [skipn nth Nat.add]. apply IH. lia.
Qed.

Lemma symbol_load_firstn (buf : list byte) :
  firstn 8 (symbol (load_BboPacket buf)) = symbol (load_BboPacket buf).
Proof.
  cbn [load_BboPacket symbol]. unfold bytes_at.
  rewrite firstn_firstn. reflexivity.
Qed.

Lemma print_bbo_erase_index (p : BboPacket) (i j : Z) :
  map erase_index (print_bbo p i) = map erase_index (print_bbo p j).
Proof.
  rewrite !print_bbo_unfold. cbn [map erase_index]. reflexivity.
Qed.

(** ** Record numbers and dump columns *)

Lemma record_indices_app (a b : list Output) :
  record_indices (a ++ b) = record_indices a ++ record_indices b.
Proof. apply flat_map_app. Qed.

Lemma record_indices_print_bbo (p : BboPacket) (index : Z) :
  record_indices (print_bbo p index) = [index].
Proof.
  rewrite print_bbo_unfold.
  destruct (compute_latency p), (padding p =? PADDING_MAGIC); reflexivity.
Qed.

Lemma record_indices_short (data : list byte) :
  record_indices [short_notice data] = [].
Proof.
  unfold short_notice. destruct (Z.of_nat (length data) =? 0); reflexivity.
Qed.

Lemma skipn16_length (b : byte) (data : list byte) (rows : nat) :
  (length (b :: data) <= S rows)%nat ->
  (length (skipn 16 (b :: data)) <= rows)%nat.
Proof. rewrite length_skipn. cbn [length]. lia. Qed.

Lemma hexdump_rows_concat (rows : nat) :
  forall (i : Z) (data : list byte),
  (length data <= rows)%nat ->
  concat (map row_hex (hexdump_rows rows i data)) = data
  /\ concat (map row_ascii (hexdump_rows rows i data))
     = map hexdump_char data.
Proof.
  induction rows as [|rows IH]; intros i data H.
  - destruct data; [split; reflexivity | cbn [length] in H; lia].
  - destruct data as [|b data]; [split; reflexivity|].
    cbn [hexdump_rows map concat row_hex row_ascii].
    destruct (IH (i + 16) (skipn 16 (b :: data))
                 (skipn16_length b data rows H)) as [-> ->].
    split; [apply firstn_skipn|].
    rewrite <- map_app, firstn_skipn. reflexivity.
Qed.

(** ** The field codec *)

(** C1. For every 48-byte buffer the struct overlay yields the symbol as the
    raw bytes 0..7 and each integer member as the little-endian unsigned
    32-bit value of its four bytes (offsets 8, 12, ..., 44); the overlay is a
    total function and applies no check. *)
Theorem load_BboPacket_layout (buf : list byte) :
  length buf = 48%nat ->
  symbol (load_BboPacket buf) = map (fun i => nth i buf x00) (seq 0 8)
  /\ bid_price (load_BboPacket buf) = le_u32_at buf 8
  /\ bid_size (load_BboPacket buf) = le_u32_at buf 12
  /\ ask_price (load_BboPacket buf) = le_u32_at buf 16
  /\ ask_size (load_BboPacket buf) = le_u32_at buf 20
  /\ spread (load_BboPacket buf) = le_u32_at buf 24
  /\ ts_t1 (load_BboPacket buf) = le_u32_at buf 28
  /\ ts_t2 (load_BboPacket buf) = le_u32_at buf 32
  /\ ts_t3 (load_BboPacket buf) = le_u32_at buf 36
  /\ ts_t4 (load_BboPacket buf) = le_u32_at buf 40
  /\ padding (load_BboPacket buf) = le_u32_at buf 44.
Proof.
  intros Hlen.
  cbn [load_BboPacket symbol bid_price bid_size ask_price ask_size spread
       ts_t1 ts_t2 ts_t3 ts_t4 padding].
  split; [|repeat split; apply load_u32_sum; lia].
  split_bytes buf 48. reflexivity.
Qed.

Lemma load_BboPacket_layout_witness :
  symbol (load_BboPacket zero_packet_bytes)
    = map (fun i => nth i zero_packet_bytes x00) (seq 0 8)
  /\ bid_price (load_BboPacket zero_packet_bytes) = le_u32_at zero_packet_bytes 8
  /\ bid_size (load_BboPacket zero_packet_bytes) = le_u32_at zero_packet_bytes 12
  /\ ask_price (load_BboPacket zero_packet_bytes) = le_u32_at zero_packet_bytes 16
  /\ ask_size (load_BboPacket zero_packet_bytes) = le_u32_at zero_packet_bytes 20
  /\ spread (load_BboPacket zero_packet_bytes) = le_u32_at zero_packet_bytes 24
  /\ ts_t1 (load_BboPacket zero_packet_bytes) = le_u32_at zero_packet_bytes 28
  /\ ts_t2 (load_BboPacket zero_packet_bytes) = le_u32_at zero_packet_bytes 32
  /\ ts_t3 (load_BboPacket zero_packet_bytes) = le_u32_at zero_packet_bytes 36
  /\ ts_t4 (load_BboPacket zero_packet_bytes) = le_u32_at zero_packet_bytes 40
  /\ padding (load_BboPacket zero_packet_bytes) = le_u32_at zero_packet_bytes 44.
Proof. apply (load_BboPacket_layout zero_packet_bytes). reflexivity. Defined.

(** C8. Writing the members of a well-formed struct value into 48 bytes at
    the documented offsets and laying the struct over those bytes again gives
    back the same members: the overlay is a left inverse of the encoder. *)
Theorem load_encode_fields (p : BboPacket) :
  wf_BboPacket p ->
  length (encode_fields p) = 48%nat
  /\ load_BboPacket (encode_fields p) = p.
Proof.
  intros [Hs H1 H2 H3 H4 H5 H6 H7 H8 H9 H10]. destruct p as [s ? ? ? ? ? ? ? ? ? ?].
  cbn [symbol bid_price bid_size ask_price ask_size spread
       ts_t1 ts_t2 ts_t3 ts_t4 padding] in *.
  split_bytes s 8.
  split; [reflexivity|].
  unfold load_BboPacket, load_u32, bytes_at, encode_fields, le_split.
  cbn [symbol bid_price bid_size ask_price ask_size spread
       ts_t1 ts_t2 ts_t3 ts_t4 padding app firstn skipn].
  repeat match goal with
  | |- context [le_combine [byte.of_Z ?v; ?b; ?c; ?d]] =>
      change (le_combine [byte.of_Z v; b; c; d])
        with (le_combine (le_split 4 v));
      rewrite (le_combine_split_4 v) by assumption
  end.
  reflexivity.
Qed.

Lemma load_encode_fields_witness :
  length (encode_fields aapl_packet) = 48%nat
  /\ load_BboPacket (encode_fields aapl_packet) = aapl_packet.
Proof.
  apply (load_encode_fields aapl_packet).
  constructor; cbn; unfold is_uint32, PADDING_MAGIC; try lia; reflexivity.
Defined.

(** ** The latency figure *)

Lemma compute_latency_some_inv (p : BboPacket) (l : Latency) :
  compute_latency p = Some l -> ts_t4 p > ts_t1 p /\ ts_t1 p <> 0.
Proof.
  intros H.
  destruct (Z_gt_dec (ts_t4 p) (ts_t1 p)) as [Hgt|Hle];
    [destruct (Z.eq_dec (ts_t1 p) 0) as [Hz|Hnz]; [|now split]|].
  - rewrite compute_latency_none in H by (now left). discriminate.
  - rewrite compute_latency_none in H by (right; lia). discriminate.
Qed.

(** C2, as stated, fails: on [overflow_packet] the guard holds and the
    report has [2^30] cycles, but its nanosecond figure is 0, not the product
    [2^30 * 4]. *)
Lemma compute_latency_product_counterexample :
  ts_t4 overflow_packet > ts_t1 overflow_packet
  /\ ts_t1 overflow_packet <> 0
  /\ compute_latency overflow_packet
     = Some {| latency_cycles := 1073741824; latency_ns := 0 |}
  /\ 1073741824 * clock_period_ns <> 0.
Proof. repeat split; try reflexivity; discriminate. Qed.

(** C2 (amended). For timestamps that fit 32 bits, [compute_latency] yields
    a report when [T4 > T1] and [T1 <> 0], with [cycles = T4 - T1] and
    [ns = (cycles * 4) mod 2^32], which is the product [cycles * 4] exactly
    when [cycles < 2^30]; it yields nothing when [T1 = 0] or [T4 <= T1].  The
    period is the literal 4; with T1 = 1000 and T4 = 1100 the report is 100
    cycles and 400 ns. *)
Theorem compute_latency_wrapping_contract (p : BboPacket) :
  is_uint32 (ts_t1 p) -> is_uint32 (ts_t4 p) ->
  (ts_t4 p > ts_t1 p /\ ts_t1 p <> 0 ->
     exists l, compute_latency p = Some l
       /\ latency_cycles l = ts_t4 p - ts_t1 p
       /\ latency_ns l = (latency_cycles l * 4) mod 2 ^ 32
       /\ (latency_ns l = latency_cycles l * 4 <->
           latency_cycles l < 2 ^ 30))
  /\ (ts_t1 p = 0 \/ ts_t4 p <= ts_t1 p -> compute_latency p = None)
  /\ (ts_t1 p = 1000 -> ts_t4 p = 1100 ->
      compute_latency p = Some {| latency_cycles := 100; latency_ns := 400 |})
  /\ clock_period_ns = 4.
Proof.
  intros H1 H4. repeat split.
  - intros [Hgt Hnz]. eexists. split; [apply compute_latency_some; assumption|].
    cbn [latency_cycles latency_ns]. unfold uint32, clock_period_ns.
    split; [reflexivity|]. split; [reflexivity|].
    unfold is_uint32 in *.
    pose proof (Z.mod_pos_bound ((ts_t4 p - ts_t1 p) * 4) (2 ^ 32)) as Hb.
    split; intros H.
    + lia.
    + apply Z.mod_small. lia.
  - apply compute_latency_none.
  - intros E1 E4. rewrite compute_latency_some by (assumption || lia).
    rewrite E1, E4. reflexivity.
Qed.

Lemma compute_latency_wrapping_contract_witness :
  compute_latency aapl_packet =
  Some {| latency_cycles := 100; latency_ns := 400 |}.
Proof.
  destruct (compute_latency_wrapping_contract aapl_packet)
    as (_ & _ & Hex & _).
  - unfold is_uint32; cbn; lia.
  - unfold is_uint32; cbn; lia.
  - apply Hex; reflexivity.
Defined.

(** C5, as stated, fails: on [wrapped_packet] the modulo-[2^32] difference
    is 16 cycles, yet no latency report is produced. *)
Lemma compute_latency_wrapped_counterexample :
  ts_t4 wrapped_packet < ts_t1 wrapped_packet
  /\ uint32 (ts_t4 wrapped_packet - ts_t1 wrapped_packet) = 16
  /\ compute_latency wrapped_packet = None
  /\ ~ (exists l, compute_latency wrapped_packet = Some l
          /\ latency_cycles l
             = uint32 (ts_t4 wrapped_packet - ts_t1 wrapped_packet))
  /\ snd (decode {| bbo := repeat x00 48; received := 0 |}
                 (encode_fields wrapped_packet))
     = [BboLine 1 [x41; x41; x50; x4c] 1500000 100 1500100 200 100].
Proof.
  split; [reflexivity|]. split; [reflexivity|]. split; [reflexivity|].
  split; [|vm_compute; reflexivity].
  intros (l & Hl & _). discriminate Hl.
Qed.

(** C5 (amended). Whenever T4 is numerically below T1, as after a wrap of
    the counter, the guard of line 126 fails: no latency is computed and
    [print_bbo] prints no timestamps line.  A difference is computed only
    when [T4 > T1] (not when [T4 = T1]), and the cycle count is then the
    plain difference [T4 - T1], which the reduction modulo [2^32] leaves
    unchanged. *)
Theorem compute_latency_wrapped_unavailable (p : BboPacket) (index : Z) :
  is_uint32 (ts_t1 p) -> is_uint32 (ts_t4 p) ->
  (ts_t4 p < ts_t1 p ->
     compute_latency p = None
     /\ existsb is_timestamps (print_bbo p index) = false)
  /\ (forall l : Latency,
        compute_latency p = Some l ->
        ts_t4 p > ts_t1 p
        /\ latency_cycles l = ts_t4 p - ts_t1 p
        /\ 0 < latency_cycles l < 2 ^ 32).
Proof.
  intros H1 H4. split.
  - intros Hlt.
    assert (Hn : compute_latency p = None)
      by (apply compute_latency_none; lia).
    split; [exact Hn|].
    rewrite print_bbo_unfold, Hn.
    destruct (padding p =? PADDING_MAGIC); reflexivity.
  - intros l Hl. destruct (compute_latency_some_inv p l Hl) as [Hgt Hnz].
    rewrite compute_latency_some in Hl by assumption.
    inversion Hl; subst l. cbn [latency_cycles].
    unfold is_uint32 in *. lia.
Qed.

Lemma compute_latency_wrapped_unavailable_witness :
  compute_latency wrapped_packet = None
  /\ existsb is_timestamps (print_bbo wrapped_packet 1) = false.
Proof.
  destruct (compute_latency_wrapped_unavailable wrapped_packet 1) as [H _].
  - unfold is_uint32; cbn; lia.
  - unfold is_uint32; cbn; lia.
  - apply H. cbn. lia.
Defined.

(** C6, as stated, fails: on [overflow_packet] the product overflows, the
    line printed reports the wrapped value 0 ns and no warning is printed. *)
Lemma latency_overflow_counterexample :
  2 ^ 32 <= (ts_t4 overflow_packet - ts_t1 overflow_packet) * clock_period_ns
  /\ print_bbo overflow_packet 1 =
     [BboLine 1 [x41; x41; x50; x4c] 1500000 100 1500100 200 100;
      TimestampsLine 1 2 3 1073741825 0]
  /\ filter is_warning (print_bbo overflow_packet 1) = []
  /\ snd (decode {| bbo := repeat x00 48; received := 0 |}
                 (encode_fields overflow_packet))
     = print_bbo overflow_packet 1.
Proof. repeat split; vm_compute; congruence. Qed.

(** C6 (amended). When the latency is available and [cycles * 4] does not
    fit 32 bits, [print_bbo] still prints the record and the timestamps
    line; the figure it reports is the product reduced modulo [2^32], which
    is smaller than the true product, and the only warning the call can print
    is the padding one. *)
Theorem print_bbo_latency_wraps (p : BboPacket) (index : Z) :
  is_uint32 (ts_t1 p) -> is_uint32 (ts_t4 p) ->
  ts_t4 p > ts_t1 p -> ts_t1 p <> 0 ->
  2 ^ 32 <= (ts_t4 p - ts_t1 p) * clock_period_ns ->
  let ns := uint32 ((ts_t4 p - ts_t1 p) * clock_period_ns) in
  print_bbo p index =
    BboLine index (c_string (firstn 8 (symbol p)))
            (bid_price p) (bid_size p) (ask_price p) (ask_size p) (spread p)
    :: TimestampsLine (ts_t1 p) (ts_t2 p) (ts_t3 p) (ts_t4 p) ns
    :: (if padding p =? PADDING_MAGIC then [] else [InvalidPadding (padding p)])
  /\ ns < (ts_t4 p - ts_t1 p) * clock_period_ns
  /\ filter is_warning (print_bbo p index) =
     (if padding p =? PADDING_MAGIC then [] else [InvalidPadding (padding p)]).
Proof.
  intros H1 H4 Hgt Hnz Hov ns.
  assert (Hp : print_bbo p index =
    BboLine index (c_string (firstn 8 (symbol p)))
            (bid_price p) (bid_size p) (ask_price p) (ask_size p) (spread p)
    :: TimestampsLine (ts_t1 p) (ts_t2 p) (ts_t3 p) (ts_t4 p) ns
    :: (if padding p =? PADDING_MAGIC then [] else [InvalidPadding (padding p)])).
  { rewrite print_bbo_unfold, compute_latency_some by assumption. reflexivity. }
  split; [exact Hp|]. split.
  - subst ns. unfold uint32.
    pose proof (Z.mod_pos_bound ((ts_t4 p - ts_t1 p) * clock_period_ns)
                                (2 ^ 32)) as Hb.
    lia.
  - rewrite Hp. destruct (padding p =? PADDING_MAGIC); reflexivity.
Qed.

Lemma print_bbo_latency_wraps_witness :
  print_bbo overflow_packet 7 =
    [BboLine 7 [x41; x41; x50; x4c] 1500000 100 1500100 200 100;
     TimestampsLine 1 2 3 1073741825 0]
  /\ uint32 ((ts_t4 overflow_packet - ts_t1 overflow_packet) * clock_period_ns)
     < (ts_t4 overflow_packet - ts_t1 overflow_packet) * clock_period_ns
  /\ filter is_warning (print_bbo overflow_packet 7) = [].
Proof.
  apply (print_bbo_latency_wraps overflow_packet 7);
    unfold is_uint32; cbn; lia.
Defined.

(** ** The symbol *)

Lemma hexdump_char_spec (b : byte) :
  hexdump_char b =
  if (0x20 <=? byte.unsigned b) && (byte.unsigned b <=? 0x7E) then b else x2e.
Proof. destruct b; reflexivity. Qed.

(** C7, as stated, fails: [nonprintable_packet] carries two symbol bytes that
    are nonzero and outside [0x20, 0x7E], and [print_bbo] prints its record
    line, symbol bytes untouched, with no warning. *)
Lemma nonprintable_symbol_counterexample :
  (exists c, In c (symbol nonprintable_packet)
             /\ c <> x00
             /\ ~ (0x20 <= byte.unsigned c <= 0x7E))
  /\ print_bbo nonprintable_packet 1 =
     [BboLine 1 [x41; x01; xff; x4c] 1500000 100 1500100 200 100;
      TimestampsLine 1000 1040 1070 1100 400]
  /\ filter is_warning (print_bbo nonprintable_packet 1) = []
  /\ snd (decode {| bbo := repeat x00 48; received := 0 |}
                 (encode_fields nonprintable_packet))
     = print_bbo nonprintable_packet 1.
Proof.
  split; [|repeat split; vm_compute; reflexivity].
  exists x01. split; [cbn; tauto|]. split; [discriminate|].
  cbn. lia.
Qed.

(** C7 (amended). [print_bbo] makes no check of the symbol: whatever eight
    bytes the symbol holds, the record line shows them as they are up to the
    first zero byte, the remaining lines are those of the packet with any
    other symbol, and the warnings printed are fixed by the padding word
    alone (none, or the padding warning).  Bytes that are not printable are
    treated in the text column of [hexdump] only, as a matter of display:
    every byte in [0x20, 0x7E] is shown as itself and every other byte, zero
    included, as ['.']. *)
Theorem print_bbo_symbol_unchecked (p : BboPacket) (s : list byte) (index : Z) :
  print_bbo (set_symbol p s) index =
    BboLine index (c_string (firstn 8 s))
            (bid_price p) (bid_size p) (ask_price p) (ask_size p) (spread p)
    :: tl (print_bbo p index)
  /\ filter is_warning (print_bbo (set_symbol p s) index)
     = (if padding p =? PADDING_MAGIC then []
        else [InvalidPadding (padding p)])
  /\ (forall b : byte,
        hexdump_char b =
        if (0x20 <=? byte.unsigned b) && (byte.unsigned b <=? 0x7E)
        then b else x2e)
  /\ hexdump_char x00 = x2e
  /\ (forall data : list byte,
        concat (map row_ascii (hexdump data)) = map hexdump_char data).
Proof.
  assert (Hl : compute_latency (set_symbol p s) = compute_latency p)
    by reflexivity.
  assert (H : print_bbo (set_symbol p s) index =
    BboLine index (c_string (firstn 8 s))
            (bid_price p) (bid_size p) (ask_price p) (ask_size p) (spread p)
    :: tl (print_bbo p index)).
  { rewrite !print_bbo_unfold, Hl. reflexivity. }
  split; [exact H|]. split; [|split; [|split]].
  - rewrite H, (print_bbo_unfold p index). cbn [tl filter is_warning].
    rewrite filter_app.
    destruct (compute_latency p), (padding p =? PADDING_MAGIC); reflexivity.
  - apply hexdump_char_spec.
  - reflexivity.
  - intros data. apply hexdump_rows_concat. apply le_n.
Qed.

(** ** The decoding path *)

(** C3, as stated, fails at the empty buffer: a read of zero bytes is
    answered by the "no data" notice of lines 252-256, not by the partial-read
    notice with actual size 0. *)
Lemma loop_body_empty_read_counterexample :
  length (@nil byte) <> 48%nat
  /\ loop_body {| bbo := repeat x00 48; received := 0 |} (ReadDone [])
     = ({| bbo := repeat x00 48; received := 0 |}, [NoData], true)
  /\ snd (decode {| bbo := repeat x00 48; received := 0 |} [])
     <> [PartialRead 0 BBO_PACKET_SIZE].
Proof.
  split; [discriminate|]. split; [reflexivity|].
  rewrite decode_empty. discriminate.
Qed.

(** C3 (amended). For every buffer whose length is neither 0 nor 48 one
    iteration of the loop prints exactly the partial-read notice with the
    buffer's length and the expected 48; an empty buffer gets the "no data"
    notice instead.  In both cases no packet is counted, no record line is
    printed, the loop goes on, and the output is the same for all buffers of
    that length, so no field is looked at. *)
Theorem loop_body_size_mismatch (st : MainState) (buffer : list byte) :
  length buffer <> 48%nat ->
  let st' := fst (fst (loop_body st (ReadDone buffer))) in
  let out := snd (fst (loop_body st (ReadDone buffer))) in
  (buffer <> [] ->
   out = [PartialRead (Z.of_nat (length buffer)) BBO_PACKET_SIZE])
  /\ (buffer = [] -> out = [NoData])
  /\ BBO_PACKET_SIZE = 48
  /\ received st' = received st
  /\ snd (loop_body st (ReadDone buffer)) = true
  /\ existsb is_bbo_line out = false
  /\ (forall buffer' : list byte,
        length buffer' = length buffer ->
        snd (fst (loop_body st (ReadDone buffer'))) = out).
Proof.
  intros H st' out. subst st' out. rewrite loop_body_decode. cbn [fst snd].
  destruct buffer as [|b buffer].
  - rewrite decode_empty. cbn [fst snd].
    split; [congruence|]. repeat split.
    intros buffer' E. destruct buffer'; [|discriminate].
    rewrite loop_body_decode, decode_empty. reflexivity.
  - rewrite decode_mismatch by (exact H || discriminate). cbn [fst snd received].
    split; [reflexivity|]. split; [discriminate|]. repeat split.
    intros buffer' E. rewrite loop_body_decode.
    rewrite decode_mismatch.
    + cbn [fst snd]. now rewrite E.
    + congruence.
    + destruct buffer'; discriminate.
Qed.

Lemma loop_body_size_mismatch_witness :
  snd (fst (loop_body {| bbo := repeat x00 48; received := 0 |}
                      (ReadDone (repeat x2a 47))))
    = [PartialRead 47 48].
Proof.
  pose proof (loop_body_size_mismatch
                {| bbo := repeat x00 48; received := 0 |} (repeat x2a 47))
    as H.
  cbv zeta in H. destruct H as [H _].
  - cbn. lia.
  - apply H. discriminate.
Defined.

(** C4. For every 48-byte buffer the decoding path counts the packet and
    prints its record line with all members; when the padding word (bytes
    44..47, little-endian) differs from 0xDEADBEEF the only warning printed
    is the padding warning carrying that word, and when it equals
    0xDEADBEEF no warning is printed. *)
Theorem decode_bad_padding_nonfatal (st : MainState) (buffer : list byte) :
  length buffer = 48%nat ->
  let p := load_BboPacket buffer in
  let out := snd (decode st buffer) in
  padding p = le_u32_at buffer 44
  /\ received (fst (decode st buffer)) = received st + 1
  /\ hd_error out =
     Some (BboLine (received st + 1) (c_string (symbol p))
                   (bid_price p) (bid_size p)
                   (ask_price p) (ask_size p) (spread p))
  /\ (padding p <> PADDING_MAGIC ->
      filter is_warning out = [InvalidPadding (padding p)])
  /\ (padding p = PADDING_MAGIC -> filter is_warning out = []).
Proof.
  intros H p out. subst p out. rewrite decode_full by exact H.
  cbn [fst snd received].
  rewrite print_bbo_unfold, symbol_load_firstn.
  set (p := load_BboPacket buffer).
  split; [apply load_u32_sum; lia|].
  split; [reflexivity|]. split; [reflexivity|].
  cbn [filter is_warning]. rewrite filter_app.
  assert (Hts : filter is_warning
    match compute_latency p with
    | Some l =>
        [TimestampsLine (ts_t1 p) (ts_t2 p) (ts_t3 p) (ts_t4 p) (latency_ns l)]
    | None => []
    end = []) by (destruct (compute_latency p); reflexivity).
  rewrite Hts. cbn [app].
  destruct (Z.eqb_spec (padding p) PADDING_MAGIC) as [E|E];
    split; intros E'; try reflexivity; contradiction.
Qed.

Lemma decode_bad_padding_nonfatal_witness :
  filter is_warning
    (snd (decode {| bbo := repeat xff 48; received := 0 |} (repeat x00 48)))
  = [InvalidPadding 0].
Proof.
  pose proof (decode_bad_padding_nonfatal
                {| bbo := repeat xff 48; received := 0 |} (repeat x00 48)
                eq_refl) as H.
  cbv zeta in H. destruct H as (_ & _ & _ & Hbad & _).
  apply Hbad. vm_compute. discriminate.
Defined.

(** C9, as stated, fails: the decoding path keeps state between calls.
    Two calls on the same buffer with different packet counters print
    different record lines, a call changes both the counter and the struct,
    and so a second call on the same buffer prints another line than the
    first. *)
Lemma decode_shared_state_counterexample :
  snd (decode {| bbo := repeat xff 48; received := 0 |} zero_packet_bytes)
    = [BboLine 1 [] 0 0 0 0 0]
  /\ snd (decode {| bbo := repeat xff 48; received := 5 |} zero_packet_bytes)
     = [BboLine 6 [] 0 0 0 0 0]
  /\ fst (decode {| bbo := repeat xff 48; received := 0 |} zero_packet_bytes)
     = {| bbo := zero_packet_bytes; received := 1 |}
  /\ snd (decode (fst (decode {| bbo := repeat xff 48; received := 0 |}
                              zero_packet_bytes))
                 zero_packet_bytes)
     <> snd (decode {| bbo := repeat xff 48; received := 0 |}
                    zero_packet_bytes).
Proof. repeat split; try reflexivity. vm_compute. discriminate. Qed.

(** C9 (amended). The record, the latency figure and the warnings printed
    for a buffer are a function of the buffer alone: they are the same
    whatever the struct held before the read and whatever the packet counter
    is, and with equal counters the whole output is the same.  The path does
    keep state between calls: it stores the buffer at the start of the struct
    and, for a 48-byte buffer, adds one to the packet counter, whose new
    value is the running number of the record line. *)
Theorem decode_state_dependence (mem1 mem2 : list byte) (n1 n2 : Z)
                                (buffer : list byte) :
  let st1 := {| bbo := mem1; received := n1 |} in
  let st2 := {| bbo := mem2; received := n2 |} in
  map erase_index (snd (decode st1 buffer))
    = map erase_index (snd (decode st2 buffer))
  /\ snd (decode st1 buffer)
     = snd (decode {| bbo := mem2; received := n1 |} buffer)
  /\ bbo (fst (decode st1 buffer)) = buffer ++ skipn (length buffer) mem1
  /\ received (fst (decode st1 buffer))
     = (if (length buffer =? 48)%nat then n1 + 1 else n1)
  /\ record_indices (snd (decode st1 buffer))
     = (if (length buffer =? 48)%nat then [n1 + 1] else []).
Proof.
  cbv zeta. destruct (Nat.eqb_spec (length buffer) 48) as [E|E].
  - rewrite !decode_full by exact E. cbn [fst snd bbo received].
    rewrite record_indices_print_bbo.
    split; [apply print_bbo_erase_index|]. repeat split.
  - rewrite !decode_short by exact E. cbn [fst snd bbo received].
    rewrite record_indices_short. repeat split.
Qed.

(** C10. For every 48-byte buffer the decoding path leaves in the struct
    exactly the members the overlay reads from the buffer, and every line it
    prints carries those members unchanged: the record line (the symbol shown
    up to its first zero byte), the timestamps line and the padding warning
    only read the struct. *)
Theorem decode_preserves_fields (st : MainState) (buffer : list byte) :
  length buffer = 48%nat ->
  let p := load_BboPacket buffer in
  let st' := fst (decode st buffer) in
  let out := snd (decode st buffer) in
  load_BboPacket (bbo st') = p
  /\ hd_error out =
     Some (BboLine (received st') (c_string (symbol p))
                   (bid_price p) (bid_size p)
                   (ask_price p) (ask_size p) (spread p))
  /\ (forall o, In o (tl out) ->
        (exists ns, o = TimestampsLine (ts_t1 p) (ts_t2 p) (ts_t3 p) (ts_t4 p) ns)
        \/ o = InvalidPadding (padding p)).
Proof.
  intros H p st' out. subst p st' out. rewrite decode_full by exact H.
  cbn [fst snd bbo received].
  split; [apply load_ReadFile_full; exact H|].
  rewrite print_bbo_unfold, symbol_load_firstn.
  set (p := load_BboPacket buffer).
  split; [reflexivity|]. cbn [tl].
  intros o Ho. apply in_app_or in Ho. destruct Ho as [Ho|Ho].
  - destruct (compute_latency p) as [l|]; [|contradiction].
    destruct Ho as [<-|[]]. left. now exists (latency_ns l).
  - destruct (padding p =? PADDING_MAGIC); [contradiction|].
    destruct Ho as [<-|[]]. now right.
Qed.

Lemma decode_preserves_fields_witness :
  load_BboPacket
    (bbo (fst (decode {| bbo := repeat xff 48; received := 4 |}
                      (encode_fields aapl_packet))))
  = aapl_packet.
Proof.
  pose proof (decode_preserves_fields
                {| bbo := repeat xff 48; received := 4 |}
                (encode_fields aapl_packet) eq_refl) as H.
  cbv zeta in H. destruct H as [H _].
  rewrite H. reflexivity.
Defined.

(** ** A run of the receive loop *)

(** An empty read, a short read and a full packet, in that order. *)
Example normal_mode_run :
  normal_mode 1 [ReadDone []; ReadDone (repeat x2a 47);
                 ReadDone zero_packet_bytes; ReadDone zero_packet_bytes]
              (repeat xff 48)
  = [NoData; PartialRead 47 48; BboLine 1 [] 0 0 0 0 0; ReceivedTotal 1].
Proof. reflexivity. Qed.

(** * Further properties of the program *)

(** ** One iteration of the receive loop, case by case *)

Lemma loop_body_full (st : MainState) (data : list byte) :
  length data = 48%nat ->
  loop_body st (ReadDone data) =
  ({| bbo := ReadFile (bbo st) data; received := received st + 1 |},
   print_bbo (load_BboPacket data) (received st + 1), true).
Proof.
  intros H. rewrite loop_body_decode.
  rewrite decode_full by exact H. reflexivity.
Qed.

Lemma loop_body_short (st : MainState) (data : list byte) :
  length data <> 48%nat ->
  loop_body st (ReadDone data) =
  ({| bbo := ReadFile (bbo st) data; received := received st |},
   [short_notice data], true).
Proof.
  intros H. destruct data as [|b data].
  - rewrite loop_body_no_data. destruct st. reflexivity.
  - rewrite loop_body_decode.
    rewrite decode_mismatch by (exact H || discriminate). reflexivity.
Qed.

(** What one iteration does to the counter and which record it prints. *)
Lemma loop_body_counter (st : MainState) (r : ReadFileResult) :
  let st' := fst (fst (loop_body st r)) in
  let out := snd (fst (loop_body st r)) in
  (received st' = received st /\ record_indices out = [])
  \/ (received st' = received st + 1
      /\ record_indices out = [received st + 1]
      /\ snd (loop_body st r) = true).
Proof.
  destruct r as [err|data]; [left; split; reflexivity|].
  destruct (Nat.eq_dec (length data) 48) as [E|E].
  - rewrite loop_body_full by exact E. right. cbn [fst snd received].
    rewrite record_indices_print_bbo. repeat split.
  - rewrite loop_body_short by exact E. left. cbn [fst snd received].
    rewrite record_indices_short. split; reflexivity.
Qed.

Lemma numbering_step (n : Z) (m : nat) :
  (n + 1) :: map (fun k => n + 1 + Z.of_nat k) (seq 1 m)
  = map (fun k => n + Z.of_nat k) (seq 1 (S m)).
Proof.
  cbn [seq map]. replace (n + Z.of_nat 1) with (n + 1) by lia. f_equal.
  rewrite <- (seq_shift m 1), map_map. apply map_ext. intros k. lia.
Qed.

(** The loop numbers its records consecutively and never counts past
    [count]. *)
Lemma receive_loop_numbering (count : Z) (reads : list ReadFileResult) :
  forall st : MainState,
  let st' := fst (receive_loop count reads st) in
  let out := snd (receive_loop count reads st) in
  received st <= received st' <= Z.max (received st) count
  /\ record_indices out =
     map (fun k => received st + Z.of_nat k)
         (seq 1 (Z.to_nat (received st' - received st))).
Proof.
  induction reads as [|r reads IH]; intros st; cbn [receive_loop].
  - cbn [fst snd]. rewrite Z.sub_diag. split; [lia|reflexivity].
  - destruct (Z.ltb_spec (received st) count) as [Hlt|Hge].
    2:{ cbn [fst snd]. rewrite Z.sub_diag. split; [lia|reflexivity]. }
    pose proof (loop_body_counter st r) as Hb.
    destruct (loop_body st r) as [[st1 out1] go_on]. cbn [fst snd] in Hb.
    destruct go_on.
    + specialize (IH st1).
      destruct (receive_loop count reads st1) as [st2 out2].
      cbn [fst snd] in *. destruct IH as [Hr Hi].
      rewrite record_indices_app, Hi.
      destruct Hb as [[Hc Ho]|(Hc & Ho & _)]; rewrite Ho, Hc in *.
      * split; [lia|reflexivity].
      * split; [lia|]. cbn [app].
        rewrite numbering_step. do 2 f_equal. lia.
    + cbn [fst snd].
      destruct Hb as [[Hc Ho]|(_ & _ & Hgo)]; [|discriminate].
      rewrite Ho, Hc, Z.sub_diag. split; [lia|reflexivity].
Qed.

(** The loop's output and counter do not depend on what the struct holds. *)
Lemma receive_loop_storage (count : Z) (reads : list ReadFileResult) :
  forall (mem1 mem2 : list byte) (n : Z),
  snd (receive_loop count reads {| bbo := mem1; received := n |})
  = snd (receive_loop count reads {| bbo := mem2; received := n |})
  /\ received (fst (receive_loop count reads {| bbo := mem1; received := n |}))
     = received (fst (receive_loop count reads {| bbo := mem2; received := n |})).
Proof.
  induction reads as [|r reads IH]; intros mem1 mem2 n; cbn [receive_loop].
  - split; reflexivity.
  - cbn [received]. destruct (n <? count); [|split; reflexivity].
    destruct r as [err|data]; [split; reflexivity|].
    destruct (Nat.eq_dec (length data) 48) as [E|E].
    + rewrite !loop_body_full by exact E. cbn [bbo received].
      specialize (IH (ReadFile mem1 data) (ReadFile mem2 data) (n + 1)).
      destruct (receive_loop count reads _) as [sa oa].
      destruct (receive_loop count reads _) as [sb ob].
      cbn [fst snd] in *. destruct IH as [-> ->]. split; reflexivity.
    + rewrite !loop_body_short by exact E. cbn [bbo received].
      specialize (IH (ReadFile mem1 data) (ReadFile mem2 data) n).
      destruct (receive_loop count reads _) as [sa oa].
      destruct (receive_loop count reads _) as [sb ob].
      cbn [fst snd] in *. destruct IH as [-> ->]. split; reflexivity.
Qed.

(** ** The receive loop as a whole *)

(** X1. What the loop prints, and the summary line after it, do not depend
    on the contents of the struct before the first read: the uninitialised
    local and the leftovers of short reads never reach the output. *)
Theorem normal_mode_ignores_storage (count : Z) (reads : list ReadFileResult)
                                    (mem1 mem2 : list byte) (n : Z) :
  snd (receive_loop count reads {| bbo := mem1; received := n |})
  = snd (receive_loop count reads {| bbo := mem2; received := n |})
  /\ normal_mode count reads mem1 = normal_mode count reads mem2.
Proof.
  split; [apply receive_loop_storage|].
  unfold normal_mode.
  pose proof (receive_loop_storage count reads mem1 mem2 0) as [Ho Hr].
  destruct (receive_loop count reads _) as [sa oa].
  destruct (receive_loop count reads _) as [sb ob].
  cbn [fst snd] in *. now rewrite Ho, Hr.
Qed.

(** Why the loop is over when the given reads bring it to its exit: the
    counter has reached [count] or the last line is a read error. *)
Lemma receive_loop_exit_reason (count : Z) (reads : list ReadFileResult) :
  forall st : MainState,
  loop_exits count reads st = true ->
  count <= received (fst (receive_loop count reads st))
  \/ (exists (err : Z) (out0 : list Output),
        snd (receive_loop count reads st) = out0 ++ [ReadError err]).
Proof.
  induction reads as [|r reads IH]; intros st H;
    cbn [loop_exits receive_loop] in *.
  - left. cbn [fst]. destruct (Z.ltb_spec (received st) count);
      [discriminate | lia].
  - destruct (Z.ltb_spec (received st) count) as [Hlt|Hge];
      [|left; cbn [fst]; lia].
    destruct r as [err|data].
    + right. exists err, []. reflexivity.
    + rewrite loop_body_decode in *.
      destruct (decode st data) as [st1 out1].
      specialize (IH st1 H).
      destruct (receive_loop count reads st1) as [st2 out2].
      cbn [fst snd] in *. destruct IH as [IH|(err & out0 & ->)].
      * now left.
      * right. exists err, (out1 ++ out0). now rewrite app_assoc.
Qed.

(** X2. In a run of the loop that comes to its end, the record lines are
    numbered 1, 2, ..., n in order, the closing line reports exactly that n,
    n never exceeds [count], and the loop has ended because n reached
    [count] or because the last read failed. *)
Theorem normal_mode_numbering (count : Z) (reads : list ReadFileResult)
                              (mem : list byte) :
  loop_exits count reads {| bbo := mem; received := 0 |} = true ->
  exists (out : list Output) (n : Z),
    normal_mode count reads mem = out ++ [ReceivedTotal n]
    /\ record_indices out = map Z.of_nat (seq 1 (Z.to_nat n))
    /\ 0 <= n <= Z.max 0 count
    /\ (n = Z.max 0 count
        \/ exists (err : Z) (out0 : list Output),
             out = out0 ++ [ReadError err]).
Proof.
  intros Hexit. unfold normal_mode.
  pose proof (receive_loop_numbering count reads
                {| bbo := mem; received := 0 |}) as H.
  pose proof (receive_loop_exit_reason count reads _ Hexit) as Hr.
  destruct (receive_loop count reads _) as [st out].
  cbn [fst snd received] in *. destruct H as [Hb Hi].
  exists out, (received st). split; [reflexivity|]. split; [|split; [lia|]].
  - rewrite Hi, Z.sub_0_r. apply map_ext. intros k. lia.
  - destruct Hr as [Hc|Hr]; [left; lia | right; exact Hr].
Qed.

Lemma normal_mode_numbering_witness :
  exists (out : list Output) (n : Z),
    normal_mode 5 [ReadDone zero_packet_bytes; ReadFailed 31] (repeat xff 48)
      = out ++ [ReceivedTotal n]
    /\ record_indices out = map Z.of_nat (seq 1 (Z.to_nat n))
    /\ 0 <= n <= Z.max 0 5
    /\ (n = Z.max 0 5
        \/ exists (err : Z) (out0 : list Output),
             out = out0 ++ [ReadError err]).
Proof.
  apply (normal_mode_numbering 5 [ReadDone zero_packet_bytes; ReadFailed 31]
           (repeat xff 48)).
  reflexivity.
Defined.

(** X3. A failing [ReadFile] ends the loop: its error line is printed and no
    later read is looked at. *)
Theorem receive_loop_break (count : Z) (pre post : list ReadFileResult)
                           (err : Z) (st : MainState) :
  receive_loop count (pre ++ ReadFailed err :: post) st
  = receive_loop count (pre ++ [ReadFailed err]) st.
Proof.
  revert st. induction pre as [|r pre IH]; intros st; cbn [app receive_loop].
  - destruct (received st <? count); reflexivity.
  - destruct (received st <? count); [|reflexivity].
    destruct (loop_body st r) as [[st1 out] go_on].
    destruct go_on; [|reflexivity]. now rewrite IH.
Qed.

(** X4. Reads that are not full packets (empty ones included) never count:
    each gets its one notice, the counter stays where it was, and the loop
    goes on to the next read. *)
Theorem receive_loop_short_reads (count : Z) (datas : list (list byte))
                                 (st : MainState) :
  Forall (fun d => length d <> 48%nat) datas ->
  received st < count ->
  snd (receive_loop count (map ReadDone datas) st) = map short_notice datas
  /\ received (fst (receive_loop count (map ReadDone datas) st))
     = received st.
Proof.
  intros H. revert st.
  induction H as [|d datas Hd Hds IH]; intros st Hlt; cbn [map receive_loop].
  - split; reflexivity.
  - destruct (Z.ltb_spec (received st) count) as [_|]; [|lia].
    rewrite loop_body_short by exact Hd.
    specialize (IH {| bbo := ReadFile (bbo st) d; received := received st |}
                   Hlt).
    destruct (receive_loop count (map ReadDone datas) _) as [st2 out2].
    cbn [fst snd received] in *. destruct IH as [-> ->]. split; reflexivity.
Qed.

Lemma receive_loop_short_reads_witness :
  snd (receive_loop 3 (map ReadDone [[]; [x01; x02]; repeat x00 47])
                    {| bbo := repeat xff 48; received := 0 |})
  = [NoData; PartialRead 2 48; PartialRead 47 48].
Proof.
  destruct (receive_loop_short_reads 3 [[]; [x01; x02]; repeat x00 47]
              {| bbo := repeat xff 48; received := 0 |}) as [H _].
  - repeat constructor; cbn; lia.
  - cbn. lia.
  - exact H.
Defined.

(** X5. Fed with full packets only, the loop prints the records of the first
    [count - received] of them, one after the other with consecutive numbers,
    and leaves the remaining packets unread. *)
Theorem receive_loop_full_packets (count : Z) (bufs : list (list byte))
                                  (st : MainState) :
  Forall (fun b => length b = 48%nat) bufs ->
  let taken := firstn (Z.to_nat (count - received st)) bufs in
  snd (receive_loop count (map ReadDone bufs) st)
    = print_all (received st) taken
  /\ received (fst (receive_loop count (map ReadDone bufs) st))
     = received st + Z.of_nat (length taken).
Proof.
  intros H. revert st.
  induction H as [|b bufs Hb Hbs IH]; intros st; cbn [map receive_loop].
  - rewrite firstn_nil. cbn [fst snd print_all length]. split; [reflexivity|lia].
  - destruct (Z.ltb_spec (received st) count) as [Hlt|Hge].
    + rewrite loop_body_full by exact Hb.
      specialize (IH {| bbo := ReadFile (bbo st) b;
                        received := received st + 1 |}).
      destruct (receive_loop count (map ReadDone bufs) _) as [st2 out2].
      cbn [fst snd received] in *.
      replace (Z.to_nat (count - received st))
        with (S (Z.to_nat (count - (received st + 1)))) by lia.
      cbn [firstn print_all length]. destruct IH as [-> ->].
      split; [reflexivity|lia].
    + replace (Z.to_nat (count - received st)) with 0%nat by lia.
      cbn [firstn fst snd print_all length]. split; [reflexivity|lia].
Qed.

Lemma receive_loop_full_packets_witness :
  snd (receive_loop 1 (map ReadDone [zero_packet_bytes; repeat x00 48])
                    {| bbo := repeat xff 48; received := 0 |})
  = print_all 0 [zero_packet_bytes].
Proof.
  destruct (receive_loop_full_packets 1 [zero_packet_bytes; repeat x00 48]
              {| bbo := repeat xff 48; received := 0 |}) as [H _].
  - repeat constructor.
  - exact H.
Defined.

(** ** [hexdump] *)

Lemma hexdump_rows_nth (rows : nat) :
  forall (i : Z) (data : list byte) (k : nat),
  (length data <= rows)%nat -> (16 * k < length data)%nat ->
  nth_error (hexdump_rows rows i data) k =
  Some {| row_offset := i + 16 * Z.of_nat k;
          row_hex := bytes_at data (16 * k) 16;
          row_ascii := map hexdump_char (bytes_at data (16 * k) 16) |}.
Proof.
  unfold bytes_at.
  induction rows as [|rows IH]; intros i data k H Hk; [lia|].
  destruct data as [|b data]; [cbn [length] in Hk; lia|].
  cbn [hexdump_rows]. destruct k as [|k]; cbn [nth_error].
  - rewrite Nat.mul_0_r, Z.mul_0_r, Z.add_0_r. reflexivity.
  - rewrite IH.
    + rewrite skipn_skipn.
      replace (16 * k + 16)%nat with (16 * S k)%nat by lia.
      replace (i + 16 + 16 * Z.of_nat k) with (i + 16 * Z.of_nat (S k)) by lia.
      reflexivity.
    + apply skipn16_length. exact H.
    + rewrite length_skipn. lia.
Qed.

Lemma hexdump_rows_length (rows : nat) :
  forall (i : Z) (data : list byte),
  (length data <= rows)%nat ->
  (16 * length (hexdump_rows rows i data) < length data + 16
   /\ length data <= 16 * length (hexdump_rows rows i data))%nat.
Proof.
  induction rows as [|rows IH]; intros i data H.
  - destruct data; cbn [length] in *; cbn [hexdump_rows length]; lia.
  - destruct data as [|b data]; [cbn [hexdump_rows length]; lia|].
    cbn [hexdump_rows].
    specialize (IH (i + 16) _ (skipn16_length b data rows H)).
    rewrite length_skipn in IH. cbn [length] in *. lia.
Qed.

Lemma hexdump_char_printable (b : byte) : printable (hexdump_char b).
Proof. destruct b; cbv; split; discriminate. Qed.

Lemma hexdump_rows_shape (rows : nat) :
  forall (i : Z) (data : list byte),
  Forall (fun r => Forall printable (row_ascii r)
                   /\ length (row_ascii r) = length (row_hex r)
                   /\ (1 <= length (row_hex r) <= 16)%nat)
         (hexdump_rows rows i data).
Proof.
  induction rows as [|rows IH]; intros i data; [constructor|].
  destruct data as [|b data]; [constructor|].
  cbn [hexdump_rows]. constructor; [|apply IH].
  cbn [row_ascii row_hex]. split; [|split].
  - apply Forall_map, Forall_forall. intros c _. apply hexdump_char_printable.
  - apply length_map.
  - pose proof (firstn_le_length 16 (b :: data)).
    rewrite length_firstn. cbn [length]. lia.
Qed.

(** X6. The dump loses nothing: the hex columns of the rows, read in order,
    are the dumped bytes, and the text columns are the same bytes with each
    one outside [0x20, 0x7E] shown as a dot. *)
Theorem hexdump_lossless (data : list byte) :
  concat (map row_hex (hexdump data)) = data
  /\ concat (map row_ascii (hexdump data)) = map hexdump_char data.
Proof. apply hexdump_rows_concat. lia. Qed.

(** X7. Row [k] of the dump starts at offset [16 * k] and holds the bytes
    from there up to sixteen; there are as many rows as sixteen-byte blocks
    needed to hold the data, the last one possibly shorter. *)
Theorem hexdump_row (data : list byte) (k : nat) :
  (16 * k < length data)%nat ->
  nth_error (hexdump data) k =
    Some {| row_offset := 16 * Z.of_nat k;
            row_hex := bytes_at data (16 * k) 16;
            row_ascii := map hexdump_char (bytes_at data (16 * k) 16) |}
  /\ (16 * length (hexdump data) < length data + 16)%nat
  /\ (length data <= 16 * length (hexdump data))%nat.
Proof.
  intros H. unfold hexdump. split.
  - rewrite hexdump_rows_nth by lia. reflexivity.
  - apply hexdump_rows_length. lia.
Qed.

Lemma hexdump_row_witness :
  nth_error (hexdump zero_packet_bytes) 2 =
    Some {| row_offset := 32;
            row_hex := repeat x00 12 ++ [xef; xbe; xad; xde];
            row_ascii := repeat x2e 16 |}
  /\ (16 * length (hexdump zero_packet_bytes)
      < length zero_packet_bytes + 16)%nat
  /\ (length zero_packet_bytes <= 16 * length (hexdump zero_packet_bytes))%nat.
Proof.
  apply (hexdump_row zero_packet_bytes 2). cbn. lia.
Defined.

(** X8. Every character of a text column is printable ASCII, every row has
    between one and sixteen bytes and its two columns have the same length;
    an empty buffer gives no row at all. *)
Theorem hexdump_text_printable (data : list byte) :
  Forall (fun r => Forall printable (row_ascii r)
                   /\ length (row_ascii r) = length (row_hex r)
                   /\ (1 <= length (row_hex r) <= 16)%nat)
         (hexdump data)
  /\ (hexdump data = [] <-> data = []).
Proof.
  split; [apply hexdump_rows_shape|].
  unfold hexdump. destruct data; cbn [length hexdump_rows]; split;
    intros H; (reflexivity || discriminate).
Qed.

(** ** Debug mode *)

Lemma firstn_ReadFile (block data : list byte) (n : nat) :
  (n <= length data)%nat ->
  firstn n (ReadFile block data) = firstn n data.
Proof.
  intros H. unfold ReadFile. rewrite firstn_app.
  replace (n - length data)%nat with 0%nat by lia.
  rewrite firstn_O. apply app_nil_r.
Qed.

(** X9. In debug mode a non-empty read of [n] bytes is reported with its
    size and a dump of its first 256 bytes at most, in at most sixteen rows;
    what the allocated block held before never shows, and when [n > 256] the
    closing line counts the [n - 256] bytes left out. *)
Theorem debug_branch_dump (block data : list byte) :
  data <> [] ->
  let n := Z.of_nat (length data) in
  debug_branch (Some block) (ReadDone data) =
    (DebugReading DEBUG_BUFFER_SIZE :: DebugRead n
       :: DebugDump (hexdump (firstn 256 data))
       :: (if n >? 256 then [DebugMore (n - 256)] else []), false)
  /\ (length (hexdump (firstn 256 data)) <= 16)%nat
  /\ Z.of_nat (length (firstn 256 data))
     + (if n >? 256 then n - 256 else 0) = n.
Proof.
  intros Hne n. assert (Hpos : 0 < n).
  { subst n. destruct data; [congruence | cbn [length]; lia]. }
  split; [|split].
  - unfold debug_branch, hexdump_len. fold n.
    destruct (Z.gtb_spec n 0) as [_|]; [|lia].
    destruct (Z.gtb_spec n 256) as [Hbig|Hsmall].
    + rewrite firstn_ReadFile by (subst n; lia). reflexivity.
    + rewrite firstn_ReadFile by (subst n; lia).
      replace (Z.to_nat n) with (length data) by (subst n; lia).
      rewrite firstn_all, (firstn_all2 data) by (subst n; lia). reflexivity.
  - pose proof (hexdump_rows_length (length (firstn 256 data)) 0
                  (firstn 256 data) (le_n _)) as [H _].
    pose proof (firstn_le_length 256 data) as Hl. unfold hexdump.
    rewrite length_firstn in *. lia.
  - rewrite length_firstn. subst n.
    destruct (Z.gtb_spec (Z.of_nat (length data)) 256); lia.
Qed.

Lemma debug_branch_dump_witness :
  fst (debug_branch (Some (repeat xff 4096)) (ReadDone (repeat x2a 300)))
  = [DebugReading 4096; DebugRead 300;
     DebugDump (hexdump (repeat x2a 256)); DebugMore 44].
Proof.
  destruct (debug_branch_dump (repeat xff 4096) (repeat x2a 300)) as [H _].
  - discriminate.
  - rewrite H. reflexivity.
Defined.

(** ** [find_xdma_device] *)

Lemma enum_interfaces_none (probes : list InterfaceProbe) :
  forall (index : Z) (devpath : list byte) (len : nat),
  existsb is_probe_detail probes = false ->
  enum_interfaces probes index devpath len = (0, devpath).
Proof.
  induction probes as [|q probes IH]; intros index devpath len H;
    [reflexivity|].
  destruct q; cbn [existsb is_probe_detail orb] in H;
    (discriminate || (cbn [enum_interfaces]; now apply IH)).
Qed.

Lemma enum_interfaces_first (pre : list InterfaceProbe) :
  forall (path : list byte) (post : list InterfaceProbe)
         (index : Z) (devpath : list byte) (len : nat),
  existsb is_probe_detail pre = false ->
  enum_interfaces (pre ++ ProbeDetail path :: post) index devpath len
  = (index + Z.of_nat (length pre) + 1, StringCchCopyA devpath len path).
Proof.
  induction pre as [|q pre IH]; intros path post index devpath len H.
  - cbn [app enum_interfaces length]. do 2 f_equal. lia.
  - destruct q; cbn [existsb is_probe_detail orb] in H; try discriminate;
      cbn [app enum_interfaces length]; rewrite IH by exact H;
      f_equal; lia.
Qed.

Lemma enum_interfaces_found (probes : list InterfaceProbe) :
  forall (index : Z) (devpath : list byte) (len : nat),
  existsb is_probe_detail probes = true ->
  index < fst (enum_interfaces probes index devpath len)
        <= index + Z.of_nat (length probes).
Proof.
  induction probes as [|q probes IH]; intros index devpath len H;
    [discriminate|].
  destruct q; cbn [existsb is_probe_detail orb] in H;
    cbn [enum_interfaces length fst]; try lia;
    specialize (IH (index + 1) devpath len H); lia.
Qed.

(** X10. The value returned is the position, counted from 1, of the first
    interface whose detail query succeeds, and [devpath] receives that
    interface's path (cut to the buffer); the interfaces after it are not
    looked at, so the value is not the number of devices present. *)
Theorem find_xdma_device_first (pre post : list InterfaceProbe)
                               (path devpath : list byte) (len : nat) :
  existsb is_probe_detail pre = false ->
  find_xdma_device (inr (pre ++ ProbeDetail path :: post)) devpath len
  = (Z.of_nat (length pre) + 1, StringCchCopyA devpath len path, None).
Proof.
  intros H. unfold find_xdma_device.
  rewrite enum_interfaces_first by exact H. reflexivity.
Qed.

Lemma find_xdma_device_first_witness :
  find_xdma_device
    (inr ([ProbeSizeError; ProbeAllocFailed] ++
          ProbeDetail sample_path :: [ProbeDetail [x41]]))
    [] 261
  = (3, sample_path, None).
Proof.
  apply (find_xdma_device_first [ProbeSizeError; ProbeAllocFailed]
           [ProbeDetail [x41]] sample_path [] 261).
  reflexivity.
Defined.

(** X11. The function returns 0 exactly when the device list cannot be
    obtained or no interface answers the detail query; then [devpath] is
    left as it was.  Otherwise the value lies between 1 and the number of
    interfaces. *)
Theorem find_xdma_device_none (dev_info : Z + list InterfaceProbe)
                              (devpath : list byte) (len : nat) :
  let ret := fst (fst (find_xdma_device dev_info devpath len)) in
  let devpath' := snd (fst (find_xdma_device dev_info devpath len)) in
  (ret = 0 <->
   match dev_info with
   | inl _ => True
   | inr probes => existsb is_probe_detail probes = false
   end)
  /\ (ret = 0 -> devpath' = devpath)
  /\ 0 <= ret
       <= match dev_info with
          | inl _ => 0
          | inr probes => Z.of_nat (length probes)
          end.
Proof.
  destruct dev_info as [err|probes]; cbn [find_xdma_device fst snd].
  - repeat split; lia.
  - destruct (existsb is_probe_detail probes) eqn:E.
    + pose proof (enum_interfaces_found probes 0 devpath len E) as H.
      destruct (enum_interfaces probes 0 devpath len) as [ret dp].
      cbn [fst snd] in *. repeat split; intros; (lia || discriminate).
    + rewrite enum_interfaces_none by exact E. cbn [fst snd].
      repeat split; lia.
Qed.

(** ** [main] *)

Lemma filter_close_loop (out : list Output) :
  filter is_close (map InLoop out) = []
  /\ existsb is_opened (map InLoop out) = false.
Proof. induction out as [|o out [IH1 IH2]]; split; cbn; auto. Qed.

Lemma filter_close_debug (lines : list DebugLine) :
  filter is_close (map InDebug lines) = []
  /\ existsb is_opened (map InDebug lines) = false
  /\ filter is_record_event (map InDebug lines) = [].
Proof. induction lines as [|l lines (IH1 & IH2 & IH3)]; repeat split; cbn; auto. Qed.

Lemma filter_record_loop (out : list Output) :
  length (filter is_record_event (map InLoop out))
  = length (record_indices out).
Proof.
  unfold record_indices.
  induction out as [|o out IH]; [reflexivity|].
  cbn [map filter is_record_event flat_map].
  rewrite length_app. destruct o; cbn [is_bbo_line length]; lia.
Qed.

Lemma parse_count_pos (w : World) : 1 <= parse_count w.
Proof.
  unfold parse_count. destruct (args w) as [|a rest]; [lia|].
  destruct (Z.leb_spec (atoi w a) 0); lia.
Qed.

Lemma make_c2h_path_firstn (base : list byte) :
  make_c2h_path base = firstn 260 (firstn 260 base ++ c2h_suffix).
Proof. reflexivity. Qed.

(** The events up to the attempt to open the device. *)
Lemma main_prefix (w : World) :
  exists (pre : list MainEvent),
    filter is_close pre = []
    /\ existsb is_opened pre = false
    /\ filter is_record_event pre = []
    /\ (fst (main w) = pre /\ snd (main w) = 1
        \/ (exists (lines : list DebugLine) (failed : bool),
             debug_mode w = true
             /\ debug_branch (malloc_buf w) (hd (ReadDone []) (reads w))
                = (lines, failed)
             /\ fst (main w)
                = (pre ++ DeviceOpened :: map InDebug lines) ++ [CloseHandle]
             /\ snd (main w) = (if failed then 1 else 0))
        \/ (exists (st : MainState) (out : list Output),
             debug_mode w = false
             /\ receive_loop (parse_count w) (reads w)
                  {| bbo := bbo_init w; received := 0 |} = (st, out)
             /\ fst (main w)
                = (pre ++ DeviceOpened :: map InLoop out
                   ++ [BlankLine; InLoop (ReceivedTotal (received st))])
                  ++ [CloseHandle]
             /\ snd (main w) = 0)).
Proof.
  unfold main.
  destruct (find_xdma_device _ _ _) as [[num_devices base_path] err].
  set (search := _ ++ [Searching] ++ _).
  assert (Hs : filter is_close search = []
               /\ existsb is_opened search = false
               /\ filter is_record_event search = []).
  { subst search. destruct (debug_mode w), err; repeat split. }
  destruct Hs as (Hs1 & Hs2 & Hs3).
  destruct (num_devices =? 0).
  { exists (search ++ [NoDevices]).
    rewrite !filter_app, existsb_app, Hs1, Hs2, Hs3.
    repeat split. left. split; reflexivity. }
  set (intro := search ++ _).
  assert (Hi : filter is_close intro = []
               /\ existsb is_opened intro = false
               /\ filter is_record_event intro = []).
  { subst intro. rewrite !filter_app, existsb_app, Hs1, Hs2, Hs3.
    repeat split. }
  destruct Hi as (Hi1 & Hi2 & Hi3).
  destruct (create_file w _) as [e|].
  { exists (intro ++ [OpenFailed e]).
    rewrite !filter_app, existsb_app, Hi1, Hi2, Hi3.
    repeat split. left. split; reflexivity. }
  exists intro. split; [exact Hi1|]. split; [exact Hi2|]. split; [exact Hi3|].
  right. destruct (debug_mode w).
  - left. destruct (debug_branch _ _) as [lines failed].
    exists lines, failed. repeat split. cbn [fst app].
    now rewrite <- !app_assoc.
  - right. destruct (receive_loop _ _ _) as [st out].
    exists st, out. repeat split. cbn [fst app].
    rewrite <- !app_assoc. cbn [app]. now rewrite <- !app_assoc.
Qed.

(** X12. In a run that comes to its end, the handle is closed exactly once,
    as the last action, if the device was opened, and [CloseHandle] is never
    called if it was not.  The exit status is 1 when the device was not
    opened; once it is opened the status is 0, read errors included, except
    that a failed allocation in debug mode gives 1. *)
Theorem main_handle_and_status (w : World) :
  reads_suffice w = true ->
  let events := fst (main w) in
  filter is_close events
    = (if existsb is_opened events then [CloseHandle] else [])
  /\ (if existsb is_opened events
      then last events Searching = CloseHandle
           /\ (snd (main w) = 1 <->
               debug_mode w = true /\ malloc_buf w = None)
           /\ (snd (main w) <> 1 -> snd (main w) = 0)
      else snd (main w) = 1).
Proof.
  intros _.
  destruct (main_prefix w) as (pre & H1 & H2 & H3 & H).
  destruct H as [[He Hr]|[(lines & failed & Hd & Hb & He & Hr)
                         |(st & out & Hd & Hl & He & Hr)]];
    cbv zeta; rewrite He, Hr.
  - rewrite H1, H2. split; reflexivity.
  - rewrite last_last, ?filter_app, ?existsb_app. cbn [filter existsb].
    rewrite ?filter_app, ?existsb_app.
    destruct (filter_close_debug lines) as (-> & -> & _).
    rewrite H1, H2. cbn.
    split; [reflexivity|]. split; [reflexivity|].
    unfold debug_branch in Hb.
    destruct (malloc_buf w) as [block|]; inversion Hb; subst;
      intuition (try discriminate; try congruence).
  - rewrite last_last, ?filter_app, ?existsb_app. cbn [filter existsb].
    rewrite ?filter_app, ?existsb_app.
    destruct (filter_close_loop out) as (-> & ->).
    rewrite H1, H2, Hd. cbn.
    split; [reflexivity|]. split; [reflexivity|].
    intuition (try discriminate; try congruence).
Qed.

(** A run that opens the device, prints one record and stops on a failed
    read: the handle is closed last and the status is 0. *)
Lemma main_handle_and_status_witness :
  filter is_close (fst (main failing_world)) = [CloseHandle]
  /\ last (fst (main failing_world)) Searching = CloseHandle
  /\ snd (main failing_world) = 0.
Proof.
  pose proof (main_handle_and_status failing_world eq_refl) as H.
  cbv zeta in H. destruct H as [Hc Ho].
  change (existsb is_opened (fst (main failing_world))) with true in Hc, Ho.
  destruct Ho as (Hlast & _ & H0).
  split; [exact Hc|]. split; [exact Hlast|].
  apply H0. discriminate.
Defined.

(** X13. The packet count that governs a run is 10 when no argument is
    given, the value of [atoi(argv[1])] when that is positive and 10 when it
    is zero or negative; so it is at least 1.  A run prints at most that
    many records, and none in debug mode. *)
Theorem main_record_count (w : World) :
  let records := filter is_record_event (fst (main w)) in
  1 <= parse_count w
  /\ Z.of_nat (length records) <= parse_count w
  /\ (if debug_mode w then records = [] else True)
  /\ (args w = [] -> parse_count w = 10)
  /\ (forall a rest, args w = a :: rest ->
        parse_count w = (if 0 <? atoi w a then atoi w a else 10)).
Proof.
  pose proof (parse_count_pos w) as Hpos.
  cbv zeta. split; [exact Hpos|].
  assert (Hc : (args w = [] -> parse_count w = 10)
      /\ (forall a rest, args w = a :: rest ->
            parse_count w = (if 0 <? atoi w a then atoi w a else 10))).
  { unfold parse_count. split.
    - intros ->. reflexivity.
    - intros a rest ->.
      destruct (Z.leb_spec (atoi w a) 0), (Z.ltb_spec 0 (atoi w a));
        (reflexivity || lia). }
  destruct (main_prefix w) as (pre & H1 & H2 & H3 & H).
  destruct H as [[He Hr]|[(lines & failed & Hd & Hb & He & Hr)
                         |(st & out & Hd & Hl & He & Hr)]];
    rewrite He, ?Hd.
  - rewrite H3. cbn [length]. split; [lia|]. split; [|exact Hc].
    destruct (debug_mode w); auto.
  - rewrite !filter_app. cbn [filter is_record_event].
    destruct (filter_close_debug lines) as (_ & _ & ->).
    rewrite H3. cbn [app length]. split; [lia|]. split; [reflexivity|exact Hc].
  - rewrite !filter_app. cbn [filter is_record_event is_bbo_line].
    rewrite !filter_app. cbn [filter is_record_event is_bbo_line].
    rewrite H3. cbn [app]. rewrite !app_nil_r, filter_record_loop.
    pose proof (receive_loop_numbering (parse_count w) (reads w)
                  {| bbo := bbo_init w; received := 0 |}) as Hn.
    rewrite Hl in Hn. cbn [fst snd received] in Hn. destruct Hn as [Hb Hi].
    rewrite Hi, length_map, length_seq.
    split; [lia|]. split; [exact I|exact Hc].
Qed.

(** X14. The channel path is the base path followed by ["\c2h_0"] as long
    as the two fit 260 characters; it never exceeds 260 characters, and a base
    path of 260 characters is returned unchanged, the suffix being dropped
    without notice. *)
Theorem make_c2h_path_fit (base : list byte) :
  (length (make_c2h_path base) <= 260)%nat
  /\ (if (length base + 6 <=? 260)%nat
      then make_c2h_path base = base ++ c2h_suffix
      else if (260 <=? length base)%nat
           then make_c2h_path base = firstn 260 base
           else exists cut, (cut < 6)%nat
                  /\ make_c2h_path base = base ++ firstn cut c2h_suffix).
Proof.
  rewrite make_c2h_path_firstn. split.
  - rewrite length_firstn. lia.
  - destruct (Nat.leb_spec (length base + 6) 260) as [Hfit|Hlong].
    + rewrite (firstn_all2 base) by lia.
      apply firstn_all2. rewrite length_app. cbn [c2h_suffix length]. lia.
    + destruct (Nat.leb_spec 260 (length base)) as [Hfull|Hpart].
      * rewrite firstn_app, length_firstn.
        replace (260 - Nat.min 260 (length base))%nat with 0%nat by lia.
        rewrite firstn_O, app_nil_r. apply firstn_firstn.
      * exists (260 - length base)%nat. split; [lia|].
        rewrite (firstn_all2 base) by lia.
        rewrite firstn_app, (firstn_all2 base) by lia. reflexivity.
Qed.

(** X15. When the first usable interface has a path short enough for the
    suffix and the device cannot be opened, the run announces the position
    of that interface, its path and the channel path built from it, reports
    the error and ends with status 1 without reading anything. *)
Theorem main_open_failure (w : World) (pre post : list InterfaceProbe)
                          (path : list byte) (e : Z) :
  class_devs w = inr (pre ++ ProbeDetail path :: post) ->
  existsb is_probe_detail pre = false ->
  (length path + 6 <= 260)%nat ->
  create_file w (path ++ c2h_suffix) = Some e ->
  main w =
  ((if debug_mode w then [DebugBanner DEBUG_BUFFER_SIZE] else [])
   ++ [Searching; FoundDevices (Z.of_nat (length pre) + 1); BasePath path;
       C2HPath (path ++ c2h_suffix); Waiting (parse_count w); OpenFailed e],
   1).
Proof.
  intros Hdev Hpre Hlen Hopen. unfold main, find_xdma_device.
  rewrite Hdev, enum_interfaces_first by exact Hpre. cbn [Z.add].
  destruct (Z.eqb_spec (Z.of_nat (length pre) + 1) 0) as [E|_]; [lia|].
  assert (Hbase : StringCchCopyA (base_path_init w) (S MAX_PATH) path = path).
  { cbn [StringCchCopyA]. apply firstn_all2. unfold MAX_PATH. lia. }
  rewrite Hbase.
  assert (Hc : make_c2h_path path = path ++ c2h_suffix).
  { rewrite make_c2h_path_firstn, (firstn_all2 path) by lia.
    apply firstn_all2. rewrite length_app. cbn [c2h_suffix length]. lia. }
  rewrite Hc, Hopen. rewrite <- !app_assoc. reflexivity.
Qed.

Lemma main_open_failure_witness :
  main locked_world =
  ([Searching; FoundDevices 2; BasePath sample_path;
    C2HPath (sample_path ++ c2h_suffix); Waiting 5; OpenFailed 5], 1).
Proof.
  apply (main_open_failure locked_world [ProbeDetailFailed] [] sample_path 5);
    [reflexivity | reflexivity | cbn; lia | reflexivity].
Defined.

(** A whole run in a sample environment whose reads bring the loop to its
    exit. *)
Example main_sample_run :
  main sample_world =
  ([Searching; FoundDevices 2; BasePath sample_path;
    C2HPath (sample_path ++ c2h_suffix); Waiting 1; DeviceOpened;
    InLoop (PartialRead 2 48); InLoop (BboLine 1 [] 0 0 0 0 0);
    BlankLine; InLoop (ReceivedTotal 1); CloseHandle], 0).
Proof. reflexivity. Qed.

(** ** The symbol on the record line and the range of the members *)

Lemma c_string_prefix (s : list byte) :
  exists rest : list byte,
    s = c_string s ++ rest
    /\ (rest = [] \/ hd_error rest = Some x00)
    /\ ~ In x00 (c_string s).
Proof.
  induction s as [|c s (rest & Hs & Hr & Hn)]; cbn [c_string].
  - exists []. repeat split; auto.
  - destruct (Byte.eqb c x00) eqn:E.
    + apply Byte.byte_dec_bl in E. subst c.
      exists (x00 :: s). repeat split; auto.
    + exists rest. cbn [app]. split; [now rewrite <- Hs|]. split; [exact Hr|].
      intros [Hc|Hin]; [|contradiction].
      subst c. discriminate E.
Qed.

(** X16. The symbol shown on the record line is the part of the eight
    symbol bytes before the first zero byte: never more than eight
    characters, never a zero byte, and all eight when the field is not
    zero-terminated. *)
Theorem print_bbo_symbol_display (p : BboPacket) (index : Z) :
  exists (shown rest : list byte),
    hd_error (print_bbo p index)
      = Some (BboLine index shown (bid_price p) (bid_size p)
                      (ask_price p) (ask_size p) (spread p))
    /\ firstn 8 (symbol p) = shown ++ rest
    /\ (rest = [] \/ hd_error rest = Some x00)
    /\ ~ In x00 shown
    /\ (length shown <= 8)%nat.
Proof.
  destruct (c_string_prefix (firstn 8 (symbol p))) as (rest & Hs & Hr & Hn).
  exists (c_string (firstn 8 (symbol p))), rest.
  rewrite print_bbo_unfold. split; [reflexivity|].
  split; [exact Hs|]. split; [exact Hr|]. split; [exact Hn|].
  pose proof (firstn_le_length 8 (symbol p)) as Hl.
  rewrite Hs, length_app in Hl. lia.
Qed.

(** X17. Whatever 48 bytes arrive, the members read from them fit their C
    types: the symbol has eight bytes and every integer member lies in
    [0, 2^32), so the timestamps always meet the range the latency
    arithmetic assumes. *)
Theorem load_BboPacket_in_range (buf : list byte) :
  length buf = 48%nat ->
  wf_BboPacket (load_BboPacket buf).
Proof.
  intros H. constructor;
    cbn [load_BboPacket symbol bid_price bid_size ask_price ask_size spread
         ts_t1 ts_t2 ts_t3 ts_t4 padding];
    try apply load_u32_range.
  unfold bytes_at. rewrite length_firstn, length_skipn. lia.
Qed.

Lemma load_BboPacket_in_range_witness :
  wf_BboPacket (load_BboPacket zero_packet_bytes).
Proof. apply (load_BboPacket_in_range zero_packet_bytes). reflexivity. Defined.

End BboReceiver.
